(** * Servo2040 multi-servo controller: embedding and verified properties

    The repository holds two builds of one firmware:
    - [servo2040_controller.cpp]: the plain controller
      (setup, handleCommands, readSerialLine, main);
    - a second build that adds the LED bar and the user button
      (setDefaultLEDs, flashCommandLED, ledWelcomeAnimation, and the
      command-LED timer in main).

    Both are embedded here as functions over an explicit machine state.
    The [build] parameter selects the lines that only the LED build has. *)

From Stdlib Require Import ZArith QArith Qabs Lia Bool String Ascii.
From Stdlib Require Import Floats.SpecFloat.
From stdpp Require Import base list.

Local Open Scope Z_scope.

(** ** Single-precision arithmetic

    The RP2040 has no FPU and evaluates [float] expressions in IEEE-754
    binary32 with round-to-nearest-even.  [SpecFloat] gives exactly that
    arithmetic once the precision and exponent range are fixed. *)
Module F32.

Definition prec : Z := 24.
Definition emax : Z := 128.

Definition float : Type := spec_float.

(** [(float)z] for an [int] operand. *)
Definition of_int (z : Z) : float := binary_normalize prec emax z 0 false.

Definition add : float -> float -> float := SFadd prec emax.
Definition mul : float -> float -> float := SFmul prec emax.
Definition div : float -> float -> float := SFdiv prec emax.

Definition eqb (x y : float) : bool := SFeqb x y.

Definition is_finite (x : float) : bool :=
  match x with
  | S754_zero _ | S754_finite _ _ _ => true
  | _ => false
  end.

(** The rational number a finite float denotes (0 for the others). *)
Definition to_Q (x : float) : Q :=
  match x with
  | S754_finite s m e =>
      let mag := if 0 <=? e then inject_Z (Z.pos m * 2 ^ e)
                 else Z.pos m # Z.to_pos (2 ^ (- e)) in
      if s then Qopp mag else mag
  | _ => 0%Q
  end.

End F32.

(** ** Constants of the firmware *)

Definition NUM_SERVOS : Z := 18.
Definition MIN_ANGLE : Z := -140.
Definition MAX_ANGLE : Z := 140.

Definition UPDATES : Z := 50.
(** [constexpr float BRIGHTNESS = 0.4f]: the binary32 nearest to 4/10. *)
Definition BRIGHTNESS : F32.float := F32.div (F32.of_int 4) (F32.of_int 10).
Definition READY_LED : nat := 0.
Definition COMMAND_LED : nat := 1.
(** [servo2040::NUM_LEDS]; the board header is not part of the sources,
    the source comment gives its value. *)
Definition NUM_LEDS : nat := 6.

(** [PICO_ERROR_TIMEOUT] of the SDK: a negative error code, distinct from
    every byte value. *)
Definition PICO_ERROR_TIMEOUT : Z := -1.

(** ** C strings and the libc functions the handler calls

    A [char] is its integer code; a C string is the list of codes before
    the terminating NUL. *)
Module C.

Definition cstring : Type := list Z.

Definition of_string (s : string) : cstring :=
  map (fun a => Z.of_N (N_of_ascii a)) (list_ascii_of_string s).

(** What [strlen]/[strcpy] see of a buffer: the bytes before the first NUL. *)
Fixpoint c_str (buf : list Z) : cstring :=
  match buf with
  | [] => []
  | c :: buf' => if c =? 0 then [] else c :: c_str buf'
  end.

(** [strtok] with a one-character delimiter set: skip leading delimiters,
    cut the token at the next delimiter (overwritten with NUL), and keep
    the position after it for the following call. *)
Fixpoint skip_delims (d : Z) (s : cstring) : cstring :=
  match s with
  | [] => []
  | c :: s' => if c =? d then skip_delims d s' else s
  end.

Fixpoint span_token (d : Z) (s : cstring) : cstring * cstring :=
  match s with
  | [] => ([], [])
  | c :: s' =>
      if c =? d then ([], s')
      else let (tok, rest) := span_token d s' in (c :: tok, rest)
  end.

Definition strtok (d : Z) (s : cstring) : option (cstring * cstring) :=
  match skip_delims d s with
  | [] => None
  | s' => Some (span_token d s')
  end.

(** [strchr (s, ch)] followed by [*p = '\0']: the text before the first
    occurrence and the text after it; [None] is the NULL result. *)
Fixpoint strchr (ch : Z) (s : cstring) : option (cstring * cstring) :=
  match s with
  | [] => None
  | c :: s' =>
      if c =? ch then Some ([], s')
      else match strchr ch s' with
           | Some (before, after) => Some (c :: before, after)
           | None => None
           end
  end.

Definition isspace (c : Z) : bool := (c =? 32) || ((9 <=? c) && (c <=? 13)).
Definition isdigit (c : Z) : bool := (48 <=? c) && (c <=? 57).

Fixpoint skip_space (s : cstring) : cstring :=
  match s with
  | [] => []
  | c :: s' => if isspace c then skip_space s' else s
  end.

Fixpoint digits (acc : Z) (s : cstring) : Z :=
  match s with
  | [] => acc
  | c :: s' => if isdigit c then digits (acc * 10 + (c - 48)) s' else acc
  end.

Definition INT_MAX : Z := 2 ^ 31 - 1.
Definition INT_MIN : Z := - 2 ^ 31.

(** [atoi] as newlib has it: [(int) strtol (s, NULL, 10)], where [long]
    and [int] are both 32 bits wide and [strtol] saturates on overflow.
    Leading white space is skipped, one sign is read, then the longest
    run of decimal digits; no digits gives 0. *)
Definition atoi (s : cstring) : Z :=
  let s1 := skip_space s in
  let '(neg, s2) :=
    match s1 with
    | c :: r => if c =? 45 then (true, r)
                else if c =? 43 then (false, r) else (false, s1)
    | [] => (false, s1)
    end in
  let v := digits 0 s2 in
  let v := if neg then - v else v in
  Z.max INT_MIN (Z.min INT_MAX v).

End C.

(** ** The angle-to-pulse mapping of handleCommands

    [float pulse_us = 1500.0f + (position * 500.0f / 140.0f);]
    with [position] an [int] promoted to [float]. *)
Definition pulse_us (position : Z) : F32.float :=
  F32.add (F32.of_int 1500)
          (F32.div (F32.mul (F32.of_int position) (F32.of_int 500))
                   (F32.of_int 140)).
Arguments pulse_us : simpl never.

(** ** Machine state

    Everything the firmware reads or writes: its global arrays, the
    function-local statics of readSerialLine, the collaborators it drives
    (servos, LED bar), its inputs (pending serial bytes, button readings,
    the clock) and a chronological trace of what it did. *)

Inductive build := Plain | WithLeds.

Definition has_leds (v : build) : bool :=
  match v with Plain => false | WithLeds => true end.

(** [servo2040::SERVO_n], the board's name for the pin of servo n. *)
Inductive gpio := SERVO (n : Z).

Record Servo := mkServo {
  servo_pin : gpio;
  servo_initialised : bool;
  (** [calibration().first_value] and [last_value]; [None] until set. *)
  cal_first_value : option F32.float;
  cal_last_value : option F32.float;
  servo_enabled : bool;
  (** the last width given to [pulse] *)
  servo_pulse : option F32.float;
}.

Inductive colour :=
| RGB (r g b : Z)
| HSV (h s v : F32.float).

Inductive array_id := ServoPins | Servos | CurrentPositions | LineBuffer.

Inductive servo_op :=
| OpInit
| OpFirstValue (v : F32.float)
| OpLastValue (v : F32.float)
| OpReadCalibration
| OpEnable
| OpPulse (us : F32.float)
| OpValue.

Inductive message :=
| MsgInitialized (n : Z)
| MsgRange (lo hi : Z)
| MsgCalibration (lo hi : option F32.float)
| MsgLedIndicators
| MsgReady
| MsgSetting (channel position : Z)
| MsgChannelAt (channel position : Z)
| MsgInvalid (channel position : Z)
| MsgButton.

Inductive event :=
| EvIndex (a : array_id) (i : Z)      (* a subscript a[i] was evaluated *)
| EvServo (i : Z) (op : servo_op)     (* a method call on *servos[i] *)
| EvPrintf (msg : message)
| EvSleep (ms : Z)
| EvHandle (line : list Z).           (* handleCommands was entered *)

Record machine := mkMachine {
  currentPositions : list Z;            (* int currentPositions[NUM_SERVOS] *)
  servos : list (option Servo);         (* Servo *servos[NUM_SERVOS]; None is NULL *)
  led_running : bool;                   (* led_bar.start() was called *)
  led_bar : list colour;
  buffer : list Z;                      (* static char buffer[256] *)
  pos : Z;                              (* static int pos *)
  rx : list Z;                          (* bytes pending on the serial input *)
  user_sw : list bool;                  (* the button's coming readings *)
  now : Z;                              (* microseconds since boot *)
  trace : list event;
}.

Definition set_currentPositions (x : list Z) (m : machine) : machine :=
  mkMachine x (servos m) (led_running m) (led_bar m) (buffer m) (pos m)
            (rx m) (user_sw m) (now m) (trace m).
Definition set_servos (x : list (option Servo)) (m : machine) : machine :=
  mkMachine (currentPositions m) x (led_running m) (led_bar m) (buffer m) (pos m)
            (rx m) (user_sw m) (now m) (trace m).
Definition set_led_running (x : bool) (m : machine) : machine :=
  mkMachine (currentPositions m) (servos m) x (led_bar m) (buffer m) (pos m)
            (rx m) (user_sw m) (now m) (trace m).
Definition set_led_bar (x : list colour) (m : machine) : machine :=
  mkMachine (currentPositions m) (servos m) (led_running m) x (buffer m) (pos m)
            (rx m) (user_sw m) (now m) (trace m).
Definition set_buffer (x : list Z) (m : machine) : machine :=
  mkMachine (currentPositions m) (servos m) (led_running m) (led_bar m) x (pos m)
            (rx m) (user_sw m) (now m) (trace m).
Definition set_pos (x : Z) (m : machine) : machine :=
  mkMachine (currentPositions m) (servos m) (led_running m) (led_bar m) (buffer m) x
            (rx m) (user_sw m) (now m) (trace m).
Definition set_rx (x : list Z) (m : machine) : machine :=
  mkMachine (currentPositions m) (servos m) (led_running m) (led_bar m) (buffer m) (pos m)
            x (user_sw m) (now m) (trace m).
Definition set_user_sw (x : list bool) (m : machine) : machine :=
  mkMachine (currentPositions m) (servos m) (led_running m) (led_bar m) (buffer m) (pos m)
            (rx m) x (now m) (trace m).
Definition set_now (x : Z) (m : machine) : machine :=
  mkMachine (currentPositions m) (servos m) (led_running m) (led_bar m) (buffer m) (pos m)
            (rx m) (user_sw m) x (trace m).
Definition log (e : event) (m : machine) : machine :=
  mkMachine (currentPositions m) (servos m) (led_running m) (led_bar m) (buffer m) (pos m)
            (rx m) (user_sw m) (now m) (trace m ++ [e]).

(** ** A state-and-fault monad

    A run either ends in a value and a machine, or stops at undefined
    behaviour (a subscript outside its array, a NULL servo pointer) or
    because a loop model ran out of fuel. *)

Inductive fault :=
| OutOfBounds (a : array_id) (i : Z)
| NullPointer (i : Z)
| OutOfFuel.

Inductive result (A : Type) :=
| Ok (a : A) (m : machine)
| Fault (f : fault).
Arguments Ok {A} a m.
Arguments Fault {A} f.

Definition M (A : Type) : Type := machine -> result A.

Definition ret {A} (a : A) : M A := fun m => Ok a m.
Definition bind {A B} (c : M A) (k : A -> M B) : M B :=
  fun m => match c m with
           | Ok a m' => k a m'
           | Fault f => Fault f
           end.
Definition fail {A} (f : fault) : M A := fun _ => Fault f.
Definition get {A} (f : machine -> A) : M A := fun m => Ok (f m) m.
Definition modify (f : machine -> machine) : M unit := fun m => Ok tt (f m).
Definition emit (e : event) : M unit := modify (log e).
Definition when (b : bool) (c : M unit) : M unit := if b then c else ret tt.

Declare Scope M_scope.
Delimit Scope M_scope with M.
Notation "'let*' x ':=' c 'in' k" := (bind c (fun x => k))
  (at level 10, x name, c at level 100, k at level 200) : M_scope.
Notation "c1 ;; c2" := (bind c1 (fun _ => c2))
  (at level 100, c2 at level 200, right associativity) : M_scope.
Local Open Scope M_scope.

(** [for (auto s = start; ...; s++)] with [count] iterations. *)
Fixpoint for_upto (start : Z) (count : nat) (body : Z -> M unit) : M unit :=
  match count with
  | O => ret tt
  | S count' => body start ;; for_upto (start + 1) count' body
  end.

(** ** Arrays and collaborators *)

(** Evaluating [a[i]] for an array of [len] elements. *)
Definition index (a : array_id) (len : Z) (i : Z) : M nat :=
  emit (EvIndex a i) ;;
  if (0 <=? i) && (i <? len) then ret (Z.to_nat i) else fail (OutOfBounds a i).

Definition servo_pins : list gpio :=
  map SERVO [1; 2; 3; 4; 5; 6; 7; 8; 9; 10; 11; 12; 13; 14; 15; 16; 17; 18].

Definition servo_pins_at (i : Z) : M gpio :=
  let* n := index ServoPins NUM_SERVOS i in
  match servo_pins !! n with
  | Some p => ret p
  | None => fail (OutOfBounds ServoPins i)
  end.

(** [servos[i] = p] *)
Definition servos_store (i : Z) (p : Servo) : M unit :=
  let* n := index Servos NUM_SERVOS i in
  modify (fun m => set_servos (<[n := Some p]> (servos m)) m).

Definition apply_op (op : servo_op) (s : Servo) : Servo :=
  match op with
  | OpInit =>
      mkServo (servo_pin s) true (cal_first_value s) (cal_last_value s)
              (servo_enabled s) (servo_pulse s)
  | OpFirstValue v =>
      mkServo (servo_pin s) (servo_initialised s) (Some v) (cal_last_value s)
              (servo_enabled s) (servo_pulse s)
  | OpLastValue v =>
      mkServo (servo_pin s) (servo_initialised s) (cal_first_value s) (Some v)
              (servo_enabled s) (servo_pulse s)
  | OpEnable =>
      mkServo (servo_pin s) (servo_initialised s) (cal_first_value s) (cal_last_value s)
              true (servo_pulse s)
  | OpPulse us =>
      mkServo (servo_pin s) (servo_initialised s) (cal_first_value s) (cal_last_value s)
              (servo_enabled s) (Some us)
  | OpReadCalibration | OpValue => s
  end.

(** A method call through a servo pointer already at hand: the
    dereference and the call. *)
Definition servo_method (n : nat) (i : Z) (op : servo_op) : M Servo :=
  let* ss := get servos in
  match ss !! n with
  | Some (Some s) =>
      emit (EvServo i op) ;;
      modify (set_servos (<[n := Some (apply_op op s)]> ss)) ;;
      ret s
  | _ => fail (NullPointer i)
  end.

(** [servos[i]->op (...)]: the subscript, then the call. *)
Definition servo_call (i : Z) (op : servo_op) : M Servo :=
  let* n := index Servos NUM_SERVOS i in
  servo_method n i op.

(** [currentPositions[i] = x] *)
Definition currentPositions_store (i : Z) (x : Z) : M unit :=
  let* n := index CurrentPositions NUM_SERVOS i in
  modify (fun m => set_currentPositions (<[n := x]> (currentPositions m)) m).

Definition printf (msg : message) : M unit := emit (EvPrintf msg).

(** [sleep_ms]: inside the model the clock moves only here; what is
    proved below holds for whatever reading [now] carries. *)
Definition sleep_ms (ms : Z) : M unit :=
  emit (EvSleep ms) ;;
  modify (fun m => set_now (now m + ms * 1000) m).

(** LED bar methods. *)
Definition led_clear : M unit :=
  modify (fun m => set_led_bar (replicate NUM_LEDS (RGB 0 0 0)) m).
Definition led_set_rgb (i : nat) (r g b : Z) : M unit :=
  modify (fun m => set_led_bar (<[i := RGB r g b]> (led_bar m)) m).
Definition led_set_hsv (i : nat) (h s v : F32.float) : M unit :=
  modify (fun m => set_led_bar (<[i := HSV h s v]> (led_bar m)) m).

(** The SDK clock: [absolute_time_t] counts microseconds in 64 bits. *)
Definition INT64_MAX : Z := 2 ^ 63 - 1.
Definition to_int64 (z : Z) : Z := (z + 2 ^ 63) mod 2 ^ 64 - 2 ^ 63.

Definition get_absolute_time : M Z := get now.
(** [make_timeout_time_ms (ms)]: now plus the delay, capped at INT64_MAX. *)
Definition make_timeout_time_ms (ms : Z) : M Z :=
  let* t := get_absolute_time in
  ret (Z.min (t + ms * 1000) INT64_MAX).
Definition absolute_time_diff_us (from to : Z) : Z := to_int64 (to - from).

(** [getchar_timeout_us (0)] *)
Definition getchar_timeout_us : M Z :=
  fun m => match rx m with
           | [] => Ok PICO_ERROR_TIMEOUT m
           | c :: r => Ok c (set_rx r m)
           end.

(** [user_sw.read ()] *)
Definition user_sw_read : M bool :=
  fun m => match user_sw m with
           | [] => Ok false m
           | b :: r => Ok b (set_user_sw r m)
           end.

(** ** The firmware *)

(** setDefaultLEDs *)
Definition setDefaultLEDs : M unit :=
  led_clear ;;
  led_set_rgb READY_LED 0 64 0 ;;
  led_set_rgb COMMAND_LED 0 0 0 ;;
  for_upto 2 (NUM_LEDS - 2)%nat
    (fun i => led_set_rgb (Z.to_nat i) 0 0 0).

(** flashCommandLED *)
Definition flashCommandLED : M unit :=
  led_set_rgb COMMAND_LED 0 0 128.

(** setup.  [stdio_init_all] brings up the USB serial port and has no
    state of its own here. *)
Definition setup_servo (s : Z) : M unit :=
  let* p := servo_pins_at s in
  servos_store s (mkServo p false None None false None) ;;
  servo_call s OpInit ;;
  (* Calibration& cal = servos[s]->calibration(); then two calls on cal *)
  servo_call s OpReadCalibration ;;
  servo_method (Z.to_nat s) s (OpFirstValue (F32.of_int MIN_ANGLE)) ;;
  servo_method (Z.to_nat s) s (OpLastValue (F32.of_int MAX_ANGLE)) ;;
  currentPositions_store s 0.

Definition setup (v : build) : M unit :=
  when (has_leds v) (modify (set_led_running true)) ;;
  for_upto 0 (Z.to_nat NUM_SERVOS) setup_servo ;;
  for_upto 0 (Z.to_nat NUM_SERVOS) (fun s => servo_call s OpEnable ;; ret tt) ;;
  when (has_leds v) setDefaultLEDs ;;
  printf (MsgInitialized NUM_SERVOS) ;;
  printf (MsgRange MIN_ANGLE MAX_ANGLE) ;;
  let* s0 := servo_call 0 OpReadCalibration in
  let* s0' := servo_call 0 OpReadCalibration in
  printf (MsgCalibration (cal_first_value s0) (cal_last_value s0')) ;;
  when (has_leds v) (printf MsgLedIndicators) ;;
  printf MsgReady.

(** handleCommands: the body of the while loop for one token.  The local
    [changed] of the LED build is written and never read. *)
Definition valid_command (channel position : Z) : bool :=
  (0 <=? channel) && (channel <? NUM_SERVOS) &&
  (MIN_ANGLE <=? position) && (position <=? MAX_ANGLE).

Definition handle_token (token : C.cstring) : M unit :=
  match C.strchr 44 token with
  | Some (channel_text, position_text) =>
      let channel := C.atoi channel_text in
      let position := C.atoi position_text in
      if valid_command channel position then
        servo_call channel OpValue ;;
        printf (MsgSetting channel position) ;;
        servo_call channel (OpPulse (pulse_us position)) ;;
        currentPositions_store channel position ;;
        servo_call channel OpValue ;;
        printf (MsgChannelAt channel position)
      else
        printf (MsgInvalid channel position)
  | None => ret tt
  end.

(** [while (token != NULL) { ...; token = strtok (NULL, ";"); }] over what
    is left of the copy.  Every round consumes at least one character, so
    fuel above the length of the copy is never used up. *)
Fixpoint token_loop (fuel : nat) (rest : C.cstring) : M unit :=
  match fuel with
  | O => fail OutOfFuel
  | S fuel' =>
      match C.strtok 59 rest with
      | None => ret tt
      | Some (token, rest') => handle_token token ;; token_loop fuel' rest'
      end
  end.

(** The copy is assumed to be allocated: [malloc] does not return NULL. *)
Definition handleCommands (v : build) (command : list Z) : M unit :=
  let cmd_copy := C.c_str command in
  emit (EvHandle cmd_copy) ;;
  when (has_leds v) flashCommandLED ;;
  token_loop (S (length cmd_copy)) cmd_copy.

(** ledWelcomeAnimation *)
Definition animation_pass : M unit :=
  for_upto 0 NUM_LEDS
    (fun i => led_set_hsv (Z.to_nat i)
                (F32.div (F32.of_int i) (F32.of_int (Z.of_nat NUM_LEDS)))
                (F32.of_int 1) BRIGHTNESS) ;;
  sleep_ms 200 ;;
  led_clear ;;
  sleep_ms 200.

Definition ledWelcomeAnimation : M unit :=
  for_upto 0 2 (fun _ => animation_pass) ;;
  setDefaultLEDs.

(** readSerialLine: what the loop body does with one character [c] that
    is not the timeout code.  [Some line] is the returned buffer, read as
    a C string at the moment of the return. *)
Definition on_char (c : Z) : M (option C.cstring) :=
  let* p := get pos in
  if (c =? 10) || (c =? 13) then
    if 0 <? p then
      let* n := index LineBuffer 256 p in
      modify (fun m => set_buffer (<[n := 0]> (buffer m)) m) ;;
      modify (set_pos 0) ;;
      let* b := get buffer in
      ret (Some (C.c_str b))
    else ret None
  else if (32 <=? c) && (c <=? 126) && (p <? 255) then
    let* n := index LineBuffer 256 p in
    modify (fun m => set_buffer (<[n := c]> (buffer m)) m) ;;
    modify (set_pos (p + 1)) ;;
    ret None
  else ret None.

Fixpoint read_loop (fuel : nat) : M (option C.cstring) :=
  match fuel with
  | O => fail OutOfFuel
  | S fuel' =>
      let* c := getchar_timeout_us in
      if c =? PICO_ERROR_TIMEOUT then ret None
      else
        let* r := on_char c in
        match r with
        | Some line => ret (Some line)
        | None => read_loop fuel'
        end
  end.

(** Every round takes one pending byte, so the fuel is never used up. *)
Definition readSerialLine : M (option C.cstring) :=
  let* pending := get rx in
  read_loop (S (length pending)).

(** main: the locals of the loop ([next_led_update] is set and never
    read), one round of the [for] loop, one round of [while (true)]. *)
Record locals := mkLocals {
  command_led_off_time : Z;
  command_led_active : bool;
}.

Fixpoint drain (v : build) (rounds : nat) (had_input : bool) (l : locals)
  : M (bool * locals) :=
  match rounds with
  | O => ret (had_input, l)
  | S rounds' =>
      let* command := readSerialLine in
      match command with
      | Some line =>
          handleCommands v line ;;
          if has_leds v then
            let* t := make_timeout_time_ms 150 in
            drain v rounds' true (mkLocals t true)
          else drain v rounds' true l
      | None => ret (had_input, l)
      end
  end.

Definition poll_button : M unit :=
  let* pressed := user_sw_read in
  if pressed then printf MsgButton ;; ledWelcomeAnimation else ret tt.

Definition tick (l : locals) : M locals :=
  if command_led_active l then
    let* t := get_absolute_time in
    if 0 <? absolute_time_diff_us (command_led_off_time l) t then
      led_set_rgb COMMAND_LED 0 0 0 ;;
      ret (mkLocals (command_led_off_time l) false)
    else ret l
  else ret l.

Definition main_iteration (v : build) (l : locals) : M locals :=
  when (has_leds v) poll_button ;;
  let* l1 := (if has_leds v then tick l else ret l) in
  let* r := drain v 100 false l1 in
  when (negb (fst r)) (sleep_ms 1) ;;
  ret (snd r).

(** main up to the loop: setup, the animation, the initial locals. *)
Definition main_start (v : build) : M locals :=
  setup v ;;
  when (has_leds v) ledWelcomeAnimation ;;
  let* t := get_absolute_time in
  ret (mkLocals t false).

Fixpoint main_loop (v : build) (iterations : nat) (l : locals) : M locals :=
  match iterations with
  | O => ret l
  | S n => let* l' := main_iteration v l in main_loop v n l'
  end.

(** The machine at reset: zeroed globals and statics, nothing pending. *)
Definition boot (input : list Z) (button : list bool) (t : Z) : machine :=
  mkMachine (replicate (Z.to_nat NUM_SERVOS) 0)
            (replicate (Z.to_nat NUM_SERVOS) None)
            false (replicate NUM_LEDS (RGB 0 0 0))
            (replicate 256 0) 0 input button t [].

(** ** The components as the specification words them *)

(** PositionMapper: [pulse_us(angle) = 1500.0 + angle * 500.0 / 140.0],
    evaluated in floating point, 140 being [MAX_ANGLE]. *)
Module PositionMapper.

Definition pulse_us (angle : Z) : F32.float :=
  let full_scale := F32.of_int MAX_ANGLE in
  let offset := F32.div (F32.mul (F32.of_int angle) (F32.of_int 500)) full_scale in
  F32.add (F32.of_int 1500) offset.

(** The same formula over the rationals, without any rounding. *)
Definition exact (angle : Z) : Q := (1500 + inject_Z angle * 500 / 140)%Q.

End PositionMapper.

(** CommandParser: split on [;], skip empty segments, split each segment
    at its first [,], read both parts as integers, keep the valid pairs
    in encounter order. *)
Module CommandParser.

Fixpoint split (d : Z) (line : C.cstring) : list C.cstring :=
  match line with
  | [] => [[]]
  | c :: line' =>
      if c =? d then [] :: split d line'
      else match split d line' with
           | seg :: segs => (c :: seg) :: segs
           | [] => [[c]]
           end
  end.

Definition nonempty (seg : C.cstring) : bool :=
  match seg with [] => false | _ :: _ => true end.

Definition has_comma (seg : C.cstring) : bool :=
  existsb (Z.eqb 44) seg.

Definition segments (line : C.cstring) : list C.cstring :=
  List.filter has_comma (List.filter nonempty (split 59 line)).

Definition fields (seg : C.cstring) : option (Z * Z) :=
  match C.strchr 44 seg with
  | Some (channel_text, angle_text) => Some (C.atoi channel_text, C.atoi angle_text)
  | None => None
  end.

Definition valid (c : Z * Z) : bool :=
  (0 <=? fst c) && (fst c <? NUM_SERVOS) &&
  (MIN_ANGLE <=? snd c) && (snd c <=? MAX_ANGLE).

Definition parse (line : C.cstring) : list (Z * Z) :=
  List.filter valid (omap fields (segments line)).

End CommandParser.

(** ** Observations on a machine *)

(** Arrays have their declared sizes and every servo pointer is set. *)
Definition is_servo (o : option Servo) : bool :=
  match o with Some _ => true | None => false end.

Definition ready (m : machine) : bool :=
  (length (currentPositions m) =? Z.to_nat NUM_SERVOS)%nat &&
  (length (servos m) =? Z.to_nat NUM_SERVOS)%nat &&
  forallb is_servo (servos m).

(** The text accumulated by readSerialLine, and its invariant. *)
Definition printable (c : Z) : bool := (32 <=? c) && (c <=? 126).

Definition accumulated (m : machine) : C.cstring :=
  take (Z.to_nat (pos m)) (buffer m).

Definition line_ok (m : machine) : bool :=
  (0 <=? pos m) && (pos m <=? 255) &&
  (length (buffer m) =? 256)%nat &&
  forallb printable (accumulated m).

(** Readings of the clock stay below 2^63 - 1 minus the slack the
    firmware adds to them in one round. *)
Definition clock_ok (m : machine) : bool :=
  (0 <=? now m) && (now m <? INT64_MAX - 1000000).

(** What the trace says. *)
Definition is_handle (e : event) : bool :=
  match e with EvHandle _ => true | _ => false end.
Definition handled (t : list event) : nat := length (List.filter is_handle t).

Definition is_sleep (ms : Z) (e : event) : bool :=
  match e with EvSleep x => x =? ms | _ => false end.
Definition slept (ms : Z) (t : list event) : nat := length (List.filter (is_sleep ms) t).

Definition pulse_of (e : event) : option (Z * F32.float) :=
  match e with EvServo i (OpPulse us) => Some (i, us) | _ => None end.
Definition pulses (t : list event) : list (Z * F32.float) := omap pulse_of t.

Definition enable_of (e : event) : option Z :=
  match e with EvServo i OpEnable => Some i | _ => None end.
Definition enables (t : list event) : list Z := omap enable_of t.

Definition index_of (e : event) : option (array_id * Z) :=
  match e with EvIndex a i => Some (a, i) | _ => None end.
Definition indices (t : list event) : list (array_id * Z) := omap index_of t.

(** ** What one token does, as a function on machines *)

Definition accept_events (channel position : Z) : list event :=
  [EvIndex Servos channel; EvServo channel OpValue;
   EvPrintf (MsgSetting channel position);
   EvIndex Servos channel; EvServo channel (OpPulse (pulse_us position));
   EvIndex CurrentPositions channel;
   EvIndex Servos channel; EvServo channel OpValue;
   EvPrintf (MsgChannelAt channel position)].

Definition accept (channel position : Z) (m : machine) : machine :=
  let n := Z.to_nat channel in
  mkMachine
    (<[n := position]> (currentPositions m))
    (match servos m !! n with
     | Some (Some s) =>
         <[n := Some (apply_op (OpPulse (pulse_us position)) s)]> (servos m)
     | _ => servos m
     end)
    (led_running m) (led_bar m) (buffer m) (pos m) (rx m) (user_sw m) (now m)
    (trace m ++ accept_events channel position).

Definition reject (channel position : Z) (m : machine) : machine :=
  log (EvPrintf (MsgInvalid channel position)) m.

Definition token_effect (token : C.cstring) (m : machine) : machine :=
  match CommandParser.fields token with
  | Some c => if CommandParser.valid c then accept (fst c) (snd c) m
              else reject (fst c) (snd c) m
  | None => m
  end.

Definition token_events (token : C.cstring) : list event :=
  match CommandParser.fields token with
  | Some c => if CommandParser.valid c then accept_events (fst c) (snd c)
              else [EvPrintf (MsgInvalid (fst c) (snd c))]
  | None => []
  end.

Fixpoint for_each {A} (f : A -> M unit) (l : list A) : M unit :=
  match l with
  | [] => ret tt
  | x :: l' => f x ;; for_each f l'
  end.

(** The machine right after setup, from reset. *)
Definition after_setup (v : build) (input : list Z) (button : list bool) (t : Z) : machine :=
  match setup v (boot input button t) with
  | Ok _ m => m
  | Fault _ => boot input button t
  end.

(** ** Checks run over the whole angle range *)

Definition angles : list Z :=
  map (fun n => Z.of_nat n + MIN_ANGLE) (seq 0 281).

Definition pulse_check (a : Z) : bool :=
  F32.is_finite (pulse_us a) &&
  Qle_bool (Qabs (F32.to_Q (pulse_us a) - PositionMapper.exact a)) (1 # 8192) &&
  (if a mod 7 =? 0
   then Qeq_bool (F32.to_Q (pulse_us a)) (PositionMapper.exact a)
   else true).

(** The machine after the tokens of a list, one after the other. *)
Definition effects (tokens : list C.cstring) (m : machine) : machine :=
  foldl (fun m token => token_effect token m) m tokens.

(** The machine on entry to the token loop of handleCommands. *)
Definition enter (v : build) (line : C.cstring) (m : machine) : machine :=
  let m1 := log (EvHandle line) m in
  if has_leds v
  then set_led_bar (<[COMMAND_LED := RGB 0 0 128]> (led_bar m1)) m1
  else m1.

(** What one accepted command does to each of the two arrays. *)
Definition store (ps : list Z) (c : Z * Z) : list Z :=
  <[Z.to_nat (fst c) := snd c]> ps.

Definition pulse_store (ss : list (option Servo)) (c : Z * Z) : list (option Servo) :=
  match ss !! Z.to_nat (fst c) with
  | Some (Some s) =>
      <[Z.to_nat (fst c) := Some (apply_op (OpPulse (pulse_us (snd c))) s)]> ss
  | _ => ss
  end.

(** An evaluated subscript of the handler is in bounds. *)
Definition index_in_bounds (ai : array_id * Z) : Prop :=
  (fst ai = Servos \/ fst ai = CurrentPositions) /\ 0 <= snd ai < NUM_SERVOS.

(** ** What one character does to the line buffer *)

Definition is_newline (c : Z) : bool := (c =? 10) || (c =? 13).

Definition append_char (c : Z) (m : machine) : machine :=
  set_pos (pos m + 1)
    (set_buffer (<[Z.to_nat (pos m) := c]> (buffer m))
       (log (EvIndex LineBuffer (pos m)) m)).

Definition emit_line (m : machine) : machine :=
  set_pos 0
    (set_buffer (<[Z.to_nat (pos m) := 0]> (buffer m))
       (log (EvIndex LineBuffer (pos m)) m)).

(** readSerialLine touches the line buffer, the cursor and the pending
    input, and nothing else; its only trace is of buffer subscripts. *)
Definition is_line_index (e : event) : bool :=
  match e with EvIndex LineBuffer _ => true | _ => false end.

Record reads_only (m m' : machine) : Prop := {
  ro_positions : currentPositions m' = currentPositions m;
  ro_servos : servos m' = servos m;
  ro_led_running : led_running m' = led_running m;
  ro_led_bar : led_bar m' = led_bar m;
  ro_user_sw : user_sw m' = user_sw m;
  ro_now : now m' = now m;
  ro_trace : exists new, trace m' = trace m ++ new /\ forallb is_line_index new = true;
}.

(** What is pending on the serial input are bytes. *)
Definition is_byte (c : Z) : bool := (0 <=? c) && (c <=? 255).
Definition input_ok (m : machine) : bool := forallb is_byte (rx m).

(** ** What the animation and the button poll leave behind *)

Definition default_leds : list colour :=
  [RGB 0 64 0; RGB 0 0 0; RGB 0 0 0; RGB 0 0 0; RGB 0 0 0; RGB 0 0 0].

Definition animation_events : list event :=
  [EvSleep 200; EvSleep 200; EvSleep 200; EvSleep 200].

Definition animate (m : machine) : machine :=
  mkMachine (currentPositions m) (servos m) (led_running m) default_leds
            (buffer m) (pos m) (rx m) (user_sw m) (now m + 800000)
            (trace m ++ animation_events).

Definition after_poll (m : machine) : machine :=
  match user_sw m with
  | [] => m
  | true :: r => animate (log (EvPrintf MsgButton) (set_user_sw r m))
  | false :: r => set_user_sw r m
  end.

(** The rest of a round of the main loop, after the button poll. *)
Definition after_button (v : build) (l : locals) : M locals :=
  let* l1 := (if has_leds v then tick l else ret l) in
  let* r := drain v 100 false l1 in
  when (negb (fst r)) (sleep_ms 1) ;;
  ret (snd r).

(** A burst of 250 one-command lines pending at once. *)
Definition burst (n : nat) : list Z :=
  concat (replicate n (C.of_string "0,1" ++ [10])).

(** ** What setup leaves behind *)

Definition configured_servo (n : Z) : option Servo :=
  Some (mkServo (SERVO n) true
          (Some (F32.of_int MIN_ANGLE)) (Some (F32.of_int MAX_ANGLE))
          true None).

(** How often [pulse (1500.0f)] was called on servo [ch]. *)
Definition neutral_pulse_calls (ch : Z) (t : list event) : nat :=
  length (List.filter
            (fun p => (fst p =? ch) && F32.eqb (snd p) (F32.of_int 1500))
            (pulses t)).

(** ** Machines and lines used as worked examples *)

Definition bench (v : build) (input : string) (button : list bool) (t : Z) : machine :=
  after_setup v (C.of_string input ++ [10]) button t.

Definition first_line (m : machine) : machine :=
  match readSerialLine m with
  | Ok _ m1 => m1
  | Fault _ => m
  end.

(** ** Further checks on the pulse mapping *)

Definition pulse_range_check (a : Z) : bool :=
  Qle_bool 1000 (F32.to_Q (pulse_us a)) && Qle_bool (F32.to_Q (pulse_us a)) 2000.

Definition pulse_step_check (a : Z) : bool :=
  (MAX_ANGLE <=? a) ||
  match (F32.to_Q (pulse_us a) ?= F32.to_Q (pulse_us (a + 1)))%Q with
  | Lt => true
  | _ => false
  end.

(** ** A line as a whole *)

(** The machine handleCommands leaves, when the arrays are set up. *)
Definition after_line (v : build) (line : list Z) (m : machine) : machine :=
  effects (CommandParser.segments (C.c_str line)) (enter v (C.c_str line) m).

(** The angle that a batch writes last to slot [n], if it writes there. *)
Definition written (n : nat) (batch : list (Z * Z)) : option Z :=
  snd <$> List.find (fun c => (Z.to_nat (fst c) =? n)%nat) (rev batch).

Definition set_pulse (x : Z) (s : Servo) : Servo := apply_op (OpPulse (pulse_us x)) s.

(** A string without NUL is a C string as it stands. *)
Definition nul_free (l : list Z) : bool := forallb (fun c => negb (c =? 0)) l.

(** ** The pending input as the lines it holds

    What readSerialLine makes of a run of bytes, call after call: the
    complete lines in their order, and the text left in the buffer. *)
Fixpoint assemble (acc : C.cstring) (input : list Z) : list C.cstring * C.cstring :=
  match input with
  | [] => ([], acc)
  | c :: r =>
      if is_newline c then
        match acc with
        | [] => assemble [] r
        | _ :: _ => let (lines, left) := assemble [] r in (acc :: lines, left)
        end
      else if printable c && (Z.of_nat (length acc) <? 255) then assemble (acc ++ [c]) r
      else assemble acc r
  end.

(** The lines handleCommands was called with, in order. *)
Definition handle_of (e : event) : option (list Z) :=
  match e with EvHandle line => Some line | _ => None end.
Definition handles (t : list event) : list (list Z) := omap handle_of t.

(** What a batch of commands sends to the servos. *)
Definition batch_pulses (batch : list (Z * Z)) : list (Z * F32.float) :=
  map (fun c => (fst c, pulse_us (snd c))) batch.

(** The commands of a list of lines, line after line. *)
Definition commands (lines : list C.cstring) : list (Z * Z) :=
  concat (map CommandParser.parse lines).

(** main, cut after [n] rounds of its loop. *)
Definition run (v : build) (n : nat) : M locals :=
  let* l := main_start v in
  main_loop v n l.

(** The complete lines pending in a machine: what is in the buffer and
    what is still to be read, taken together. *)
Definition lines_of (m : machine) : list C.cstring :=
  fst (assemble (accumulated m) (rx m)).

(** [m'] is [m] after the first [k] pending lines were read and handled
    and nothing else happened to the channels. *)
Record drained (k : nat) (m m' : machine) : Prop := {
  dr_ready : ready m' = true;
  dr_line_ok : line_ok m' = true;
  dr_input_ok : input_ok m' = true;
  dr_handles : handles (trace m') = handles (trace m) ++ take k (lines_of m);
  dr_positions :
    currentPositions m' =
    foldl store (currentPositions m) (commands (take k (lines_of m)));
  dr_servos :
    servos m' = foldl pulse_store (servos m) (commands (take k (lines_of m)));
  dr_pulses :
    pulses (trace m') =
    pulses (trace m) ++ batch_pulses (commands (take k (lines_of m)));
  dr_rest : lines_of m' = drop k (lines_of m);
}.

(** ** Positions and pulses in step *)

(** Two floats that are the same datum. *)
Definition same_float (x y : F32.float) : bool :=
  match x, y with
  | S754_zero a, S754_zero b => Bool.eqb a b
  | S754_infinity a, S754_infinity b => Bool.eqb a b
  | S754_nan, S754_nan => true
  | S754_finite a m e, S754_finite b m' e' =>
      Bool.eqb a b && (m =? m')%positive && (e =? e')
  | _, _ => false
  end.

(** A stored position is in range, its servo exists, and the last pulse
    the servo got is the pulse of that position; a servo that never got
    a pulse stands at 0. *)
Definition channel_ok (p : Z) (o : option Servo) : bool :=
  (MIN_ANGLE <=? p) && (p <=? MAX_ANGLE) &&
  match o with
  | Some s =>
      match servo_pulse s with
      | Some us => same_float us (pulse_us p)
      | None => p =? 0
      end
  | None => false
  end.

Definition in_sync (m : machine) : bool :=
  forallb (fun po => channel_ok (fst po) (snd po))
          (combine (currentPositions m) (servos m)).

(** ** The LED bar between rounds *)

Definition colour_eqb (a b : colour) : bool :=
  match a, b with
  | RGB r1 g1 b1, RGB r2 g2 b2 => (r1 =? r2) && (g1 =? g2) && (b1 =? b2)
  | HSV h1 s1 v1, HSV h2 s2 v2 =>
      same_float h1 h2 && same_float s1 s2 && same_float v1 v2
  | _, _ => false
  end.

Fixpoint bar_eqb (x y : list colour) : bool :=
  match x, y with
  | [], [] => true
  | a :: x', b :: y' => colour_eqb a b && bar_eqb x' y'
  | _, _ => false
  end.

Definition flashing_leds : list colour :=
  [RGB 0 64 0; RGB 0 0 128; RGB 0 0 0; RGB 0 0 0; RGB 0 0 0; RGB 0 0 0].

(** The ready LED is green, the command LED is off, or blue with the
    timer armed, and the other LEDs are off. *)
Definition led_ok (l : locals) (m : machine) : bool :=
  bar_eqb (led_bar m) default_leds ||
  (bar_eqb (led_bar m) flashing_leds && command_led_active l).

(** ** The machine when the loop of main begins *)

Definition started (v : build) (input : list Z) (button : list bool) (t : Z) : machine :=
  match main_start v (boot input button t) with
  | Ok _ m => m
  | Fault _ => boot input button t
  end.

Definition start_locals (v : build) (input : list Z) (button : list bool) (t : Z) : locals :=
  match main_start v (boot input button t) with
  | Ok l _ => l
  | Fault _ => mkLocals 0 false
  end.


(** ** What a servo is apart from its pulse *)

Definition without_pulse (s : Servo) : Servo :=
  mkServo (servo_pin s) (servo_initialised s) (cal_first_value s) (cal_last_value s)
          (servo_enabled s) None.

(** * Properties *)

(** ** The model at work *)

Example atoi_sign_and_junk : C.atoi (C.of_string " -20x") = -20.
Proof. reflexivity. Qed.

Example atoi_no_digits : C.atoi (C.of_string "abc") = 0.
Proof. reflexivity. Qed.

Example atoi_saturates : C.atoi (C.of_string "99999999999") = C.INT_MAX.
Proof. reflexivity. Qed.

Example strtok_skips_leading :
  C.strtok 59 (C.of_string ";;0,10;1") = Some (C.of_string "0,10", C.of_string "1").
Proof. reflexivity. Qed.

Example segments_of_a_line :
  CommandParser.segments (C.of_string "5,999;;abc;3,50;") =
  [C.of_string "5,999"; C.of_string "3,50"].
Proof. reflexivity. Qed.

Example handle_two_commands :
  match handleCommands Plain (C.of_string "0,10;1,-20;") (bench Plain "" [] 0) with
  | Ok _ m => firstn 3 (currentPositions m) = [10; -20; 0]
  | Fault _ => False
  end.
Proof. vm_compute. reflexivity. Qed.

Example read_two_lines :
  match readSerialLine (boot (C.of_string "ab" ++ [13; 10] ++ C.of_string "c") [] 0)
  with
  | Ok r m =>
      r = Some (C.of_string "ab") /\
      match readSerialLine m with
      | Ok r' m' => r' = None /\ pos m' = 1 /\ rx m' = []
      | Fault _ => False
      end
  | Fault _ => False
  end.
Proof. vm_compute. repeat split. Qed.

(** ** PositionMapper *)

Lemma angles_complete (a : Z) : MIN_ANGLE <= a <= MAX_ANGLE -> In a angles.
Proof.
  unfold MIN_ANGLE, MAX_ANGLE, angles. intros Ha.
  apply in_map_iff. exists (Z.to_nat (a + 140)). split.
  - rewrite Z2Nat.id by lia. unfold MIN_ANGLE. lia.
  - apply in_seq. lia.
Qed.

Lemma pulse_check_all : forallb pulse_check angles = true.
Proof. vm_compute. reflexivity. Qed.

(** C1: on every angle of [-140, 140] the code computes the binary32
    value of 1500.0 + a * 500.0 / 140.0.  That value is finite, within
    2^-13 of the formula taken over the rationals, and equal to it when
    7 divides a; so -140, 0 and 140 map to 1000.0, 1500.0 and 2000.0. *)
Theorem pulse_us_formula (a : Z) (Ha : MIN_ANGLE <= a <= MAX_ANGLE) :
  pulse_us a = PositionMapper.pulse_us a /\
  F32.is_finite (pulse_us a) = true /\
  (Qabs (F32.to_Q (pulse_us a) - PositionMapper.exact a) <= 1 # 8192)%Q /\
  (a mod 7 = 0 -> (F32.to_Q (pulse_us a) == PositionMapper.exact a)%Q) /\
  pulse_us (-140) = F32.of_int 1000 /\
  pulse_us 0 = F32.of_int 1500 /\
  pulse_us 140 = F32.of_int 2000.
Proof.
  pose proof (proj1 (forallb_forall _ _) pulse_check_all a (angles_complete a Ha)) as H.
  unfold pulse_check in H.
  apply andb_prop in H as [H H7]. apply andb_prop in H as [Hfin Hle].
  split; [reflexivity|]. split; [exact Hfin|].
  split; [apply Qle_bool_iff; exact Hle|].
  split.
  - intros Hmod. rewrite Hmod in H7. apply Qeq_bool_iff. exact H7.
  - repeat split; vm_compute; reflexivity.
Qed.


(** ** Running the monad *)

Lemma bind_Ok {A B} (c : M A) (k : A -> M B) m a m1 :
  c m = Ok a m1 -> bind c k m = k a m1.
Proof. unfold bind. intros ->. reflexivity. Qed.

Lemma index_Ok a len i m :
  0 <= i < len -> index a len i m = Ok (Z.to_nat i) (log (EvIndex a i) m).
Proof.
  intros [H0 H1]. unfold index, bind, emit, modify.
  apply Z.leb_le in H0. apply Z.ltb_lt in H1. rewrite H0, H1. reflexivity.
Qed.

Lemma servo_call_Ok i op s m :
  0 <= i < NUM_SERVOS ->
  servos m !! Z.to_nat i = Some (Some s) ->
  servo_call i op m =
  Ok s (set_servos (<[Z.to_nat i := Some (apply_op op s)]> (servos m))
          (log (EvServo i op) (log (EvIndex Servos i) m))).
Proof.
  intros Hi Hs. unfold servo_call.
  rewrite (bind_Ok _ _ _ _ _ (index_Ok Servos NUM_SERVOS i m Hi)).
  unfold servo_method, bind, get, emit, modify, ret. cbn [servos log].
  rewrite Hs. reflexivity.
Qed.

Lemma currentPositions_store_Ok i x m :
  0 <= i < NUM_SERVOS ->
  currentPositions_store i x m =
  Ok tt (set_currentPositions (<[Z.to_nat i := x]> (currentPositions m))
           (log (EvIndex CurrentPositions i) m)).
Proof.
  intros Hi. unfold currentPositions_store.
  rewrite (bind_Ok _ _ _ _ _ (index_Ok CurrentPositions NUM_SERVOS i m Hi)).
  reflexivity.
Qed.

(** ** Readiness of the arrays *)

Lemma ready_lengths m :
  ready m = true ->
  length (currentPositions m) = Z.to_nat NUM_SERVOS /\
  length (servos m) = Z.to_nat NUM_SERVOS /\
  forallb is_servo (servos m) = true.
Proof.
  unfold ready. intros H.
  apply andb_prop in H as [H H3]. apply andb_prop in H as [H1 H2].
  apply Nat.eqb_eq in H1, H2. auto.
Qed.

Lemma ready_servo m i :
  ready m = true -> 0 <= i < NUM_SERVOS ->
  exists s, servos m !! Z.to_nat i = Some (Some s).
Proof.
  intros H Hi. apply ready_lengths in H as (_ & Hlen & Hall).
  destruct (servos m !! Z.to_nat i) as [o|] eqn:E.
  - pose proof (proj1 (forallb_forall _ _) Hall o) as Ho.
    destruct o as [s|].
    + eauto.
    + assert (In None (servos m)) as Hin.
      { apply list_elem_of_In. eapply list_elem_of_lookup_2. exact E. }
      specialize (Ho Hin). discriminate.
  - apply lookup_ge_None in E. unfold NUM_SERVOS in *. lia.
Qed.

Lemma forallb_insert {A} (p : A -> bool) (l : list A) n x :
  forallb p l = true -> p x = true -> forallb p (<[n := x]> l) = true.
Proof.
  revert n. induction l as [|y l IH]; intros n Hl Hx; [reflexivity|].
  cbn in Hl. apply andb_prop in Hl as [Hy Hl].
  destruct n; cbn.
  - rewrite Hx. exact Hl.
  - rewrite Hy. apply IH; assumption.
Qed.

Lemma ready_accept ch x m : ready m = true -> ready (accept ch x m) = true.
Proof.
  intros H. apply ready_lengths in H as (H1 & H2 & H3).
  unfold ready, accept. cbn.
  rewrite length_insert, H1, Nat.eqb_refl. cbn.
  destruct (servos m !! Z.to_nat ch) as [[s|]|] eqn:E.
  - rewrite length_insert, H2, Nat.eqb_refl. cbn.
    apply forallb_insert; [assumption|reflexivity].
  - rewrite H2, Nat.eqb_refl. exact H3.
  - rewrite H2, Nat.eqb_refl. exact H3.
Qed.

Lemma ready_token_effect tok m : ready m = true -> ready (token_effect tok m) = true.
Proof.
  intros H. unfold token_effect.
  destruct (CommandParser.fields tok) as [c|]; [|assumption].
  destruct (CommandParser.valid c); [apply ready_accept; assumption|assumption].
Qed.

Lemma ready_effects toks m : ready m = true -> ready (effects toks m) = true.
Proof.
  revert m. induction toks as [|t toks IH]; intros m H; [assumption|].
  cbn. apply IH. apply ready_token_effect. assumption.
Qed.

(** ** One token *)

Lemma valid_range ch x :
  CommandParser.valid (ch, x) = true <->
  0 <= ch < NUM_SERVOS /\ MIN_ANGLE <= x <= MAX_ANGLE.
Proof.
  unfold CommandParser.valid. cbn.
  rewrite !andb_true_iff, !Z.leb_le, Z.ltb_lt. lia.
Qed.

Lemma valid_command_eq ch x : valid_command ch x = CommandParser.valid (ch, x).
Proof. reflexivity. Qed.

Lemma handle_token_accept tok ch x m :
  CommandParser.fields tok = Some (ch, x) ->
  CommandParser.valid (ch, x) = true ->
  ready m = true ->
  handle_token tok m = Ok tt (accept ch x m).
Proof.
  intros Hf Hv Hr. unfold CommandParser.fields in Hf. unfold handle_token.
  destruct (C.strchr 44 tok) as [[a b]|]; [|discriminate].
  injection Hf as <- <-. rewrite valid_command_eq, Hv.
  apply valid_range in Hv as [Hch _].
  destruct (ready_servo m _ Hr Hch) as [s Hs].
  apply ready_lengths in Hr as (_ & Hlen & _).
  assert (Z.to_nat (C.atoi a) < length (servos m))%nat as Hlt
    by (unfold NUM_SERVOS in *; lia).
  set (ch := C.atoi a) in *. set (x := C.atoi b) in *.
  erewrite bind_Ok by (apply servo_call_Ok; eassumption).
  unfold printf at 1, emit at 1, modify at 1, bind at 1.
  erewrite bind_Ok; cycle 1.
  { apply servo_call_Ok; [assumption|]. cbn.
    rewrite list_lookup_insert_eq by assumption. reflexivity. }
  erewrite bind_Ok by (apply currentPositions_store_Ok; assumption).
  erewrite bind_Ok; cycle 1.
  { apply servo_call_Ok; [assumption|]. cbn.
    rewrite list_lookup_insert_eq by (rewrite !length_insert; assumption).
    reflexivity. }
  unfold printf, emit, modify, accept. cbn. rewrite Hs.
  rewrite !list_insert_insert_eq. lazy [log set_servos set_currentPositions accept_events currentPositions servos
        led_running led_bar buffer pos rx user_sw now trace].
  rewrite <- !app_assoc. reflexivity.
Qed.

Lemma handle_token_reject tok ch x m :
  CommandParser.fields tok = Some (ch, x) ->
  CommandParser.valid (ch, x) = false ->
  handle_token tok m = Ok tt (reject ch x m).
Proof.
  intros Hf Hv. unfold CommandParser.fields in Hf. unfold handle_token.
  destruct (C.strchr 44 tok) as [[a b]|]; [|discriminate].
  injection Hf as <- <-. rewrite valid_command_eq, Hv. reflexivity.
Qed.

Lemma handle_token_skip tok m :
  CommandParser.fields tok = None -> handle_token tok m = Ok tt m.
Proof.
  unfold CommandParser.fields, handle_token.
  destruct (C.strchr 44 tok) as [[a b]|]; [discriminate|reflexivity].
Qed.

Lemma handle_token_effect tok m :
  ready m = true -> handle_token tok m = Ok tt (token_effect tok m).
Proof.
  intros Hr. unfold token_effect.
  destruct (CommandParser.fields tok) as [[ch x]|] eqn:Hf.
  - destruct (CommandParser.valid (ch, x)) eqn:Hv.
    + apply handle_token_accept; assumption.
    + apply handle_token_reject; assumption.
  - apply handle_token_skip; assumption.
Qed.

Lemma for_each_effects toks m :
  ready m = true -> for_each handle_token toks m = Ok tt (effects toks m).
Proof.
  revert m. induction toks as [|t toks IH]; intros m Hr; [reflexivity|].
  cbn. erewrite bind_Ok by (apply handle_token_effect; assumption).
  apply IH. apply ready_token_effect. assumption.
Qed.

(** ** strtok against the split on [;] *)

Import CommandParser.

Lemma split_span d s :
  exists tl, split d s = fst (C.span_token d s) :: tl /\
             List.filter nonempty tl =
             List.filter nonempty (split d (snd (C.span_token d s))).
Proof.
  induction s as [|c s IH]; cbn.
  - exists []. split; reflexivity.
  - destruct (c =? d) eqn:E; cbn.
    + exists (split d s). split; reflexivity.
    + destruct IH as (tl & Hsplit & Hfilter).
      destruct (C.span_token d s) as [tok rest]; cbn in *.
      rewrite Hsplit. exists tl. split; [reflexivity|exact Hfilter].
Qed.

Lemma span_length d s : (length (snd (C.span_token d s)) <= length s)%nat.
Proof.
  induction s as [|c s IH]; cbn; [lia|].
  destruct (c =? d); cbn; [lia|].
  destruct (C.span_token d s); cbn in *. lia.
Qed.

Lemma skip_delims_split d s :
  List.filter nonempty (split d (C.skip_delims d s)) = List.filter nonempty (split d s).
Proof.
  induction s as [|c s IH]; cbn; [reflexivity|].
  destruct (c =? d) eqn:E; cbn; [exact IH|].
  rewrite E. reflexivity.
Qed.

Lemma skip_delims_length d s : (length (C.skip_delims d s) <= length s)%nat.
Proof.
  induction s as [|c s IH]; cbn; [lia|].
  destruct (c =? d); cbn; lia.
Qed.

Lemma skip_delims_head d s c r : C.skip_delims d s = c :: r -> (c =? d) = false.
Proof.
  induction s as [|c' s IH]; cbn; [discriminate|].
  destruct (c' =? d) eqn:E; [exact IH|].
  intros H. injection H as <- <-. exact E.
Qed.

Lemma strtok_None d s :
  C.strtok d s = None -> List.filter nonempty (split d s) = [].
Proof.
  unfold C.strtok. intros H. rewrite <- (skip_delims_split d s).
  destruct (C.skip_delims d s); [reflexivity|discriminate].
Qed.

Lemma strtok_Some d s tok rest :
  C.strtok d s = Some (tok, rest) ->
  List.filter nonempty (split d s) = tok :: List.filter nonempty (split d rest) /\
  (length rest < length s)%nat.
Proof.
  unfold C.strtok. intros H. rewrite <- (skip_delims_split d s).
  pose proof (skip_delims_length d s) as Hlen.
  destruct (C.skip_delims d s) as [|c r] eqn:E; [discriminate|].
  apply skip_delims_head in E.
  destruct (split_span d (c :: r)) as (tl & Hsplit & Hfilter).
  pose proof (span_length d r) as Hr.
  cbn [C.span_token] in H, Hsplit, Hfilter. rewrite E in H, Hsplit, Hfilter.
  destruct (C.span_token d r) as [tok' rest'] eqn:Er.
  injection H as <- <-. cbn [fst snd] in Hsplit, Hfilter, Hr.
  rewrite Hsplit. cbn [List.filter nonempty].
  split; [f_equal; exact Hfilter|]. cbn [length] in Hlen. lia.
Qed.

Lemma token_loop_for_each fuel s m :
  (length s < fuel)%nat ->
  token_loop fuel s m = for_each handle_token (List.filter nonempty (split 59 s)) m.
Proof.
  revert s m. induction fuel as [|fuel IH]; intros s m Hlen; [lia|].
  cbn. destruct (C.strtok 59 s) as [[tok rest]|] eqn:E.
  - apply strtok_Some in E as [-> Hrest]. cbn.
    unfold bind. destruct (handle_token tok m); [|reflexivity].
    apply IH. lia.
  - apply strtok_None in E. rewrite E. reflexivity.
Qed.

Lemma has_comma_strchr seg : has_comma seg = false -> C.strchr 44 seg = None.
Proof.
  unfold has_comma. induction seg as [|c seg IH]; cbn [existsb C.strchr]; [reflexivity|].
  rewrite (Z.eqb_sym 44 c). destruct (c =? 44); cbn [orb]; [discriminate|].
  intros H. rewrite (IH H). reflexivity.
Qed.

Lemma has_comma_fields seg : has_comma seg = false -> fields seg = None.
Proof. intros H. unfold fields. rewrite (has_comma_strchr _ H). reflexivity. Qed.

Lemma effects_cons t toks m : effects (t :: toks) m = effects toks (token_effect t m).
Proof. reflexivity. Qed.

Lemma for_each_cons {A} (f : A -> M unit) x l m :
  for_each f (x :: l) m = bind (f x) (fun _ => for_each f l) m.
Proof. reflexivity. Qed.

Lemma for_each_has_comma toks m :
  for_each handle_token (List.filter has_comma toks) m = for_each handle_token toks m.
Proof.
  revert m. induction toks as [|t toks IH]; intros m; [reflexivity|].
  cbn [List.filter]. destruct (has_comma t) eqn:E.
  - rewrite !for_each_cons. unfold bind.
    destruct (handle_token t m); [apply IH|reflexivity].
  - rewrite for_each_cons.
    rewrite (bind_Ok _ _ _ _ _ (handle_token_skip t m (has_comma_fields _ E))).
    apply IH.
Qed.

Lemma ready_enter v line m : ready (enter v line m) = ready m.
Proof. unfold enter. destruct v; reflexivity. Qed.

(** handleCommands is the entry step followed by the tokens that have a
    comma, in the order of the split on [;]. *)
Lemma handleCommands_for_each v line m :
  handleCommands v line m =
  for_each handle_token (segments (C.c_str line)) (enter v (C.c_str line) m).
Proof.
  unfold handleCommands, segments. rewrite for_each_has_comma.
  destruct v; cbn -[token_loop]; unfold bind; cbn -[token_loop];
    apply token_loop_for_each; lia.
Qed.

Lemma handleCommands_effects v line m :
  ready m = true ->
  handleCommands v line m =
  Ok tt (effects (segments (C.c_str line)) (enter v (C.c_str line) m)).
Proof.
  intros Hr. rewrite handleCommands_for_each.
  apply for_each_effects. rewrite ready_enter. exact Hr.
Qed.

(** ** What the tokens leave in the machine *)

Lemma trace_token_effect tok m :
  trace (token_effect tok m) = trace m ++ token_events tok.
Proof.
  unfold token_effect, token_events.
  destruct (fields tok) as [c|]; [|symmetry; apply app_nil_r].
  destruct (valid c); reflexivity.
Qed.

Lemma trace_effects toks m :
  trace (effects toks m) = trace m ++ concat (map token_events toks).
Proof.
  revert m. induction toks as [|t toks IH]; intros m.
  - cbn. symmetry. apply app_nil_r.
  - rewrite effects_cons, IH, trace_token_effect. cbn [map concat].
    rewrite <- app_assoc. reflexivity.
Qed.

Lemma omap_cons {A B} (f : A -> option B) x l :
  omap f (x :: l) = match f x with Some y => y :: omap f l | None => omap f l end.
Proof. reflexivity. Qed.

Lemma trace_enter v line m : trace (enter v line m) = trace m ++ [EvHandle line].
Proof. destruct v; reflexivity. Qed.

Lemma currentPositions_enter v line m :
  currentPositions (enter v line m) = currentPositions m.
Proof. destruct v; reflexivity. Qed.

Lemma servos_enter v line m : servos (enter v line m) = servos m.
Proof. destruct v; reflexivity. Qed.

Lemma currentPositions_effects toks m :
  currentPositions (effects toks m) =
  foldl store (currentPositions m) (List.filter valid (omap fields toks)).
Proof.
  revert m. induction toks as [|t toks IH]; intros m; [reflexivity|].
  rewrite effects_cons, IH, omap_cons. unfold token_effect.
  destruct (fields t) as [c|]; [|reflexivity].
  cbn [List.filter]. destruct (valid c); reflexivity.
Qed.

Lemma pulses_app t1 t2 : pulses (t1 ++ t2) = pulses t1 ++ pulses t2.
Proof. apply omap_app. Qed.

Lemma pulses_token_events toks :
  pulses (concat (map token_events toks)) =
  map (fun c => (fst c, pulse_us (snd c))) (List.filter valid (omap fields toks)).
Proof.
  induction toks as [|t toks IH]; [reflexivity|].
  cbn [map concat]. rewrite pulses_app, IH, omap_cons. unfold token_events.
  destruct (fields t) as [c|]; [|reflexivity].
  cbn [List.filter]. destruct (valid c); reflexivity.
Qed.

(** C3: handleCommands runs the token body over the pieces of the split
    on [;] that are not empty and hold a [,], in their order; the pulse
    calls it makes and the positions it stores are those of the parsed
    batch, in order.  The line 0,10;1,-20; parses to two commands. *)
Theorem parser_split_order (v : build) (line : list Z) (m : machine)
    (Hr : ready m = true) :
  exists m',
    handleCommands v line m = Ok tt m' /\
    handleCommands v line m =
      for_each handle_token
        (List.filter has_comma (List.filter nonempty (split 59 (C.c_str line))))
        (enter v (C.c_str line) m) /\
    pulses (trace m') =
      pulses (trace m) ++
      map (fun c => (fst c, pulse_us (snd c))) (parse (C.c_str line)) /\
    currentPositions m' = foldl store (currentPositions m) (parse (C.c_str line)) /\
    parse (C.of_string "0,10;1,-20;") = [(0, 10); (1, -20)].
Proof.
  eexists. split; [apply handleCommands_effects; exact Hr|].
  split; [apply handleCommands_for_each|].
  split; [|split].
  - rewrite trace_effects, trace_enter, !pulses_app, pulses_token_events.
    cbn [pulses omap list_omap pulse_of]. rewrite app_nil_r. reflexivity.
  - rewrite currentPositions_effects, currentPositions_enter. reflexivity.
  - vm_compute. reflexivity.
Qed.

Lemma servos_effects toks m :
  servos (effects toks m) =
  foldl pulse_store (servos m) (List.filter valid (omap fields toks)).
Proof.
  revert m. induction toks as [|t toks IH]; intros m; [reflexivity|].
  rewrite effects_cons, IH, omap_cons. unfold token_effect.
  destruct (fields t) as [c|]; [|reflexivity].
  cbn [List.filter]. destruct (valid c); reflexivity.
Qed.

Lemma effects_app l1 l2 m : effects (l1 ++ l2) m = effects l2 (effects l1 m).
Proof. unfold effects. apply foldl_app. Qed.

Lemma batch_without l1 seg l2 c :
  fields seg = Some c -> valid c = false ->
  List.filter valid (omap fields (l1 ++ seg :: l2)) =
  List.filter valid (omap fields (l1 ++ l2)).
Proof.
  intros Hf Hv. rewrite !omap_app, !List.filter_app, omap_cons, Hf.
  cbn [List.filter]. rewrite Hv. reflexivity.
Qed.

Lemma invalid_not_valid ch x :
  ~ (0 <= ch < NUM_SERVOS) \/ ~ (MIN_ANGLE <= x <= MAX_ANGLE) ->
  valid (ch, x) = false.
Proof.
  intros H. destruct (valid (ch, x)) eqn:E; [|reflexivity].
  apply valid_range in E. tauto.
Qed.

Lemma parse_unfold line :
  List.filter valid (omap fields (segments line)) = parse line.
Proof. reflexivity. Qed.

Lemma parse_5_999 : parse (C.c_str (C.of_string "5,999")) = [].
Proof. vm_compute. reflexivity. Qed.

Lemma parse_99_0 : parse (C.c_str (C.of_string "99,0")) = [].
Proof. vm_compute. reflexivity. Qed.

(** C2: a segment whose channel or angle is out of range gets the
    diagnostic and nothing else: the token body only appends the message
    to the trace, the segments before and after it are processed as ever,
    and positions, servos and pulse calls end as if the segment were not
    in the line.  The lines 5,999 and 99,0 change no position and no servo. *)
Theorem rejected_segment_no_effect (v : build) (line : list Z) (m : machine)
    (before after : list C.cstring) (seg : C.cstring) (ch x : Z)
    (Hr : ready m = true)
    (Hsplit : segments (C.c_str line) = before ++ seg :: after)
    (Hseg : fields seg = Some (ch, x))
    (Hbad : ~ (0 <= ch < NUM_SERVOS) \/ ~ (MIN_ANGLE <= x <= MAX_ANGLE)) :
  (forall m1, handle_token seg m1 = Ok tt (log (EvPrintf (MsgInvalid ch x)) m1)) /\
  (forall m1, let m2 := log (EvPrintf (MsgInvalid ch x)) m1 in
     currentPositions m2 = currentPositions m1 /\ servos m2 = servos m1 /\
     trace m2 = trace m1 ++ [EvPrintf (MsgInvalid ch x)]) /\
  (let start := enter v (C.c_str line) m in
   let m' := effects after (log (EvPrintf (MsgInvalid ch x)) (effects before start)) in
   let without := effects (before ++ after) start in
   handleCommands v line m = Ok tt m' /\
   currentPositions m' = currentPositions without /\
   servos m' = servos without /\
   pulses (trace m') = pulses (trace without)) /\
  (forall m0, ready m0 = true ->
     exists m1 m2,
       handleCommands v (C.of_string "5,999") m0 = Ok tt m1 /\
       currentPositions m1 = currentPositions m0 /\ servos m1 = servos m0 /\
       pulses (trace m1) = pulses (trace m0) /\
       handleCommands v (C.of_string "99,0") m0 = Ok tt m2 /\
       currentPositions m2 = currentPositions m0 /\ servos m2 = servos m0 /\
       pulses (trace m2) = pulses (trace m0)).
Proof.
  pose proof (invalid_not_valid _ _ Hbad) as Hv.
  split; [intros m1; apply handle_token_reject; assumption|].
  split; [intros m1; cbn zeta; repeat split|].
  split.
  - cbn zeta.
    assert (effects (before ++ seg :: after) (enter v (C.c_str line) m) =
            effects after (log (EvPrintf (MsgInvalid ch x))
                             (effects before (enter v (C.c_str line) m)))) as E.
    { rewrite effects_app, effects_cons. f_equal.
      unfold token_effect. rewrite Hseg, Hv. reflexivity. }
    rewrite <- E. split; [rewrite <- Hsplit; apply handleCommands_effects; exact Hr|].
    rewrite !currentPositions_effects, !servos_effects.
    rewrite (batch_without _ _ _ _ Hseg Hv).
    split; [reflexivity|]. split; [reflexivity|].
    rewrite !trace_effects, !pulses_app, !pulses_token_events.
    rewrite (batch_without _ _ _ _ Hseg Hv). reflexivity.
  - intros m0 H0.
    pose proof (handleCommands_effects v (C.of_string "5,999") m0 H0) as E1.
    pose proof (handleCommands_effects v (C.of_string "99,0") m0 H0) as E2.
    match type of E1 with _ = Ok tt ?a => exists a end.
    match type of E2 with _ = Ok tt ?a => exists a end.
    rewrite !currentPositions_effects, !servos_effects, !currentPositions_enter,
      !servos_enter, !trace_effects, !trace_enter, !pulses_app, !pulses_token_events.
    rewrite (parse_unfold (C.c_str (C.of_string "5,999"))), parse_5_999.
    rewrite (parse_unfold (C.c_str (C.of_string "99,0"))), parse_99_0.
    cbn [map pulses omap list_omap pulse_of foldl]. rewrite !app_nil_r.
    repeat split; assumption.
Qed.

(** ** Last write wins *)

Lemma to_nat_ne a b : 0 <= a -> 0 <= b -> a <> b -> Z.to_nat a <> Z.to_nat b.
Proof. lia. Qed.

Lemma pulse_store_other ss c n :
  Z.to_nat (fst c) <> n -> pulse_store ss c !! n = ss !! n.
Proof.
  intros Hne. unfold pulse_store.
  destruct (ss !! Z.to_nat (fst c)) as [[s|]|]; try reflexivity.
  apply list_lookup_insert_ne. exact Hne.
Qed.

Lemma batch_keeps (ch : Z) (batch : list (Z * Z)) ps ss :
  0 <= ch ->
  Forall (fun c => valid c = true /\ fst c <> ch) batch ->
  foldl store ps batch !! Z.to_nat ch = ps !! Z.to_nat ch /\
  foldl pulse_store ss batch !! Z.to_nat ch = ss !! Z.to_nat ch.
Proof.
  intros Hch. revert ps ss.
  induction batch as [|c batch IH]; intros ps ss Hall; [split; reflexivity|].
  apply Forall_cons in Hall as [[Hv Hne] Hall]. cbn.
  destruct c as [c1 c2]. apply valid_range in Hv as [Hc _]. cbn in Hne.
  destruct (IH (store ps (c1, c2)) (pulse_store ss (c1, c2)) Hall) as [-> ->].
  assert (Z.to_nat c1 <> Z.to_nat ch) as Hn by (apply to_nat_ne; lia).
  split.
  - unfold store. cbn. apply list_lookup_insert_ne. exact Hn.
  - apply pulse_store_other. exact Hn.
Qed.

Lemma batch_of_later after ch :
  (forall s c, In s after -> fields s = Some c -> valid c = true -> fst c <> ch) ->
  Forall (fun c => valid c = true /\ fst c <> ch) (List.filter valid (omap fields after)).
Proof.
  intros H. apply List.Forall_forall. intros c Hin.
  apply List.filter_In in Hin as [Hin Hv]. split; [exact Hv|].
  apply list_elem_of_In in Hin. apply list_elem_of_omap in Hin as (s & Hs & Hf).
  apply list_elem_of_In in Hs. eapply H; eassumption.
Qed.

(** C4: the tokens are applied in their order, so the last accepted
    segment for a channel decides: the stored position of that channel is
    its angle and the last pulse the servo got is the pulse of that
    angle.  After 3,50;3,-50 channel 3 stands at -50. *)
Theorem last_write_wins (v : build) (line : list Z) (m : machine)
    (before after : list C.cstring) (seg : C.cstring) (ch x : Z)
    (Hr : ready m = true)
    (Hsplit : segments (C.c_str line) = before ++ seg :: after)
    (Hseg : fields seg = Some (ch, x))
    (Hv : valid (ch, x) = true)
    (Hlast : forall s c, In s after -> fields s = Some c -> valid c = true ->
                         fst c <> ch) :
  (exists m',
     handleCommands v line m = Ok tt m' /\
     currentPositions m' !! Z.to_nat ch = Some x /\
     exists s, servos m' !! Z.to_nat ch = Some (Some s) /\
               servo_pulse s = Some (pulse_us x)) /\
  (forall m0, ready m0 = true ->
     exists m1, handleCommands v (C.of_string "3,50;3,-50") m0 = Ok tt m1 /\
                currentPositions m1 !! 3%nat = Some (-50)).
Proof.
  split.
  - eexists. split; [apply handleCommands_effects; exact Hr|].
    rewrite Hsplit, effects_app. cbn.
    set (m1 := effects before (enter v (C.c_str line) m)).
    assert (ready m1 = true) as Hr1
      by (apply ready_effects; rewrite ready_enter; exact Hr).
    fold (effects after (token_effect seg m1)).
    rewrite currentPositions_effects, servos_effects.
    pose proof (valid_range ch x) as [Hrange _]. specialize (Hrange Hv).
    destruct Hrange as [Hch _].
    destruct (batch_keeps ch _ (currentPositions (token_effect seg m1))
                (servos (token_effect seg m1)) (proj1 Hch)
                (batch_of_later _ _ Hlast)) as [-> ->].
    unfold token_effect. rewrite Hseg, Hv. cbn.
    destruct (ready_servo m1 ch Hr1 Hch) as [s Hs].
    apply ready_lengths in Hr1 as (H1 & H2 & _).
    unfold NUM_SERVOS in *.
    split; [apply list_lookup_insert_eq; lia|].
    rewrite Hs. eexists. split; [apply list_lookup_insert_eq; lia|reflexivity].
  - intros m0 H0. eexists. split; [apply handleCommands_effects; exact H0|].
    rewrite currentPositions_effects, currentPositions_enter.
    apply ready_lengths in H0 as (H1 & _).
    change (segments (C.c_str (C.of_string "3,50;3,-50")))
      with [C.of_string "3,50"; C.of_string "3,-50"].
    change (List.filter valid (omap fields [C.of_string "3,50"; C.of_string "3,-50"]))
      with [(3, 50); (3, -50)].
    cbn. unfold store. cbn. rewrite list_insert_insert_eq.
    apply list_lookup_insert_eq. rewrite H1. unfold NUM_SERVOS. lia.
Qed.

(** ** Subscripts of the handler *)

Lemma indices_token_events tok : Forall index_in_bounds (indices (token_events tok)).
Proof.
  unfold token_events. destruct (fields tok) as [[ch x]|]; [|constructor].
  destruct (valid (ch, x)) eqn:Hv; [|constructor].
  apply valid_range in Hv as [Hch _]. cbn.
  repeat constructor; cbn; auto; lia.
Qed.

Lemma indices_concat toks :
  Forall index_in_bounds (indices (concat (map token_events toks))).
Proof.
  induction toks as [|t toks IH]; [constructor|].
  cbn. unfold indices in *. rewrite omap_app. apply Forall_app. split; [|exact IH].
  apply indices_token_events.
Qed.

(** C10: on a machine whose arrays are set up, handleCommands never
    leaves the bounds of [servos] and [currentPositions]: it ends without
    fault, every subscript it evaluates is a channel in [0, 18), and a
    token that fails the guard evaluates no subscript at all. *)
Theorem handler_indices_in_bounds (v : build) (line : list Z) (m : machine)
    (Hr : ready m = true) :
  exists m' new,
    handleCommands v line m = Ok tt m' /\
    trace m' = trace m ++ new /\
    Forall index_in_bounds (indices new) /\
    (forall seg ch x m1,
       fields seg = Some (ch, x) -> valid (ch, x) = false ->
       exists m2, handle_token seg m1 = Ok tt m2 /\
                  indices (trace m2) = indices (trace m1)).
Proof.
  do 2 eexists. split; [apply handleCommands_effects; exact Hr|].
  split; [rewrite trace_effects, trace_enter, <- app_assoc; reflexivity|].
  split.
  - cbn. apply indices_concat.
  - intros seg ch x m1 Hf Hv. eexists.
    split; [apply handle_token_reject; eassumption|].
    cbn. unfold indices. rewrite omap_app. cbn. apply app_nil_r.
Qed.

(** ** LineAssembler *)

Lemma line_ok_inv m :
  line_ok m = true ->
  0 <= pos m <= 255 /\ length (buffer m) = 256%nat /\
  forallb printable (accumulated m) = true.
Proof.
  unfold line_ok. intros H.
  apply andb_prop in H as [H H4]. apply andb_prop in H as [H H3].
  apply andb_prop in H as [H1 H2].
  apply Z.leb_le in H1, H2. apply Nat.eqb_eq in H3. auto.
Qed.

Lemma line_ok_intro m :
  0 <= pos m <= 255 -> length (buffer m) = 256%nat ->
  forallb printable (accumulated m) = true -> line_ok m = true.
Proof.
  intros [H1 H2] H3 H4. unfold line_ok.
  apply Z.leb_le in H1, H2. apply Nat.eqb_eq in H3.
  rewrite H1, H2, H3, H4. reflexivity.
Qed.

Lemma printable_not_nul c : printable c = true -> (c =? 0) = false.
Proof.
  unfold printable. intros H. apply andb_prop in H as [H _].
  apply Z.leb_le in H. apply Z.eqb_neq. lia.
Qed.

Lemma c_str_insert_nul buf n :
  (n < length buf)%nat -> forallb printable (take n buf) = true ->
  C.c_str (<[n := 0]> buf) = take n buf.
Proof.
  revert n. induction buf as [|c buf IH]; intros n Hn Hall; [cbn in Hn; lia|].
  destruct n as [|n]; [reflexivity|].
  cbn in *. apply andb_prop in Hall as [Hc Hall].
  rewrite (printable_not_nul _ Hc). f_equal. apply IH; [lia|exact Hall].
Qed.

Lemma accumulated_length m :
  line_ok m = true -> length (accumulated m) = Z.to_nat (pos m).
Proof.
  intros H. apply line_ok_inv in H as (Hp & Hlen & _).
  unfold accumulated. apply length_take_le. lia.
Qed.

Lemma on_char_emit c m :
  line_ok m = true -> is_newline c = true -> 0 < pos m ->
  on_char c m = Ok (Some (accumulated m)) (emit_line m).
Proof.
  intros Hok Hnl Hpos. pose proof (line_ok_inv _ Hok) as (Hp & Hlen & Hall).
  unfold on_char. unfold bind at 1, get. fold (is_newline c). rewrite Hnl.
  apply Z.ltb_lt in Hpos as Hpos'. rewrite Hpos'.
  rewrite (bind_Ok _ _ _ _ _ (index_Ok LineBuffer 256 (pos m) m ltac:(lia))).
  unfold bind, modify, get, ret. cbn [buffer set_pos set_buffer log].
  rewrite c_str_insert_nul by (try exact Hall; lia). reflexivity.
Qed.

Lemma on_char_empty c m :
  is_newline c = true -> pos m <= 0 -> on_char c m = Ok None m.
Proof.
  intros Hnl Hpos. unfold on_char. unfold bind at 1, get.
  fold (is_newline c). rewrite Hnl.
  apply Z.ltb_ge in Hpos. rewrite Hpos. reflexivity.
Qed.

Lemma on_char_append c m :
  is_newline c = false -> printable c = true -> 0 <= pos m < 255 ->
  on_char c m = Ok None (append_char c m).
Proof.
  intros Hnl Hpr Hpos. unfold on_char. unfold bind at 1, get.
  fold (is_newline c). rewrite Hnl. fold (printable c). rewrite Hpr.
  destruct Hpos as [H0 H1]. apply Z.ltb_lt in H1 as H1'. rewrite H1'.
  cbn [andb].
  rewrite (bind_Ok _ _ _ _ _ (index_Ok LineBuffer 256 (pos m) m ltac:(lia))).
  reflexivity.
Qed.

Lemma on_char_discard c m :
  is_newline c = false -> printable c = false \/ 255 <= pos m ->
  on_char c m = Ok None m.
Proof.
  intros Hnl Hor. unfold on_char. unfold bind at 1, get.
  fold (is_newline c). rewrite Hnl. fold (printable c).
  destruct Hor as [Hpr|Hpos].
  - rewrite Hpr. reflexivity.
  - apply Z.ltb_ge in Hpos. rewrite Hpos, andb_false_r. reflexivity.
Qed.

Lemma accumulated_append c m :
  line_ok m = true -> pos m < 255 ->
  accumulated (append_char c m) = accumulated m ++ [c].
Proof.
  intros Hok Hpos. apply line_ok_inv in Hok as (Hp & Hlen & _).
  unfold accumulated, append_char. cbn.
  replace (Z.to_nat (pos m + 1)) with (S (Z.to_nat (pos m))) by lia.
  erewrite take_S_r by (apply list_lookup_insert_eq; lia).
  rewrite take_insert_ge by lia. reflexivity.
Qed.

Lemma line_ok_append c m :
  line_ok m = true -> printable c = true -> pos m < 255 ->
  line_ok (append_char c m) = true.
Proof.
  intros Hok Hpr Hpos. pose proof (line_ok_inv _ Hok) as (Hp & Hlen & Hall).
  apply line_ok_intro.
  - cbn. lia.
  - cbn. rewrite length_insert. exact Hlen.
  - rewrite accumulated_append by assumption.
    rewrite forallb_app, Hall. cbn. rewrite Hpr. reflexivity.
Qed.

Lemma line_ok_emit m : line_ok m = true -> line_ok (emit_line m) = true.
Proof.
  intros Hok. pose proof (line_ok_inv _ Hok) as (Hp & Hlen & Hall).
  apply line_ok_intro.
  - cbn. lia.
  - cbn. rewrite length_insert. exact Hlen.
  - reflexivity.
Qed.

(** The four cases of the loop body, in one. *)
Lemma on_char_cases c m :
  line_ok m = true ->
  (is_newline c = true /\ 0 < pos m /\
   on_char c m = Ok (Some (accumulated m)) (emit_line m)) \/
  (is_newline c = false /\ printable c = true /\ pos m < 255 /\
   on_char c m = Ok None (append_char c m)) \/
  on_char c m = Ok None m.
Proof.
  intros Hok. pose proof (line_ok_inv _ Hok) as (Hp & _).
  destruct (is_newline c) eqn:Hnl.
  - destruct (Z_lt_le_dec 0 (pos m)) as [Hpos|Hpos].
    + left. auto using on_char_emit.
    + right. right. apply on_char_empty; assumption.
  - destruct (printable c) eqn:Hpr.
    + destruct (Z_lt_le_dec (pos m) 255) as [Hpos|Hpos].
      * right. left. repeat split; try assumption.
        apply on_char_append; try assumption. lia.
      * right. right. apply on_char_discard; auto.
    + right. right. apply on_char_discard; auto.
Qed.

Lemma reads_only_refl m : reads_only m m.
Proof.
  constructor; try reflexivity. exists []. split; [symmetry; apply app_nil_r|reflexivity].
Qed.

Lemma reads_only_trans m1 m2 m3 :
  reads_only m1 m2 -> reads_only m2 m3 -> reads_only m1 m3.
Proof.
  intros [A1 A2 A3 A4 A5 A6 (n1 & T1 & F1)] [B1 B2 B3 B4 B5 B6 (n2 & T2 & F2)].
  constructor; try congruence.
  exists (n1 ++ n2). split.
  - rewrite T2, T1, <- app_assoc. reflexivity.
  - rewrite forallb_app, F1, F2. reflexivity.
Qed.

Lemma reads_only_set_rx r m : reads_only m (set_rx r m).
Proof.
  constructor; try reflexivity. exists []. split; [symmetry; apply app_nil_r|reflexivity].
Qed.

Lemma reads_only_append c m : reads_only m (append_char c m).
Proof.
  constructor; try reflexivity. exists [EvIndex LineBuffer (pos m)].
  split; reflexivity.
Qed.

Lemma reads_only_emit m : reads_only m (emit_line m).
Proof.
  constructor; try reflexivity. exists [EvIndex LineBuffer (pos m)].
  split; reflexivity.
Qed.

Lemma byte_not_timeout c : is_byte c = true -> (c =? PICO_ERROR_TIMEOUT) = false.
Proof.
  unfold is_byte, PICO_ERROR_TIMEOUT. intros H. apply andb_prop in H as [H _].
  apply Z.leb_le in H. apply Z.eqb_neq. lia.
Qed.

(** readSerialLine always returns: with a line that is not empty, or
    with NULL once no byte is pending. *)
Lemma read_loop_total fuel m :
  line_ok m = true -> input_ok m = true -> (length (rx m) < fuel)%nat ->
  exists r m',
    read_loop fuel m = Ok r m' /\ line_ok m' = true /\ input_ok m' = true /\
    reads_only m m' /\
    match r with
    | Some line => line <> [] /\ pos m' = 0
    | None => rx m' = []
    end.
Proof.
  revert m. induction fuel as [|fuel IH]; intros m Hok Hin Hlen; [lia|].
  cbn [read_loop]. unfold bind at 1, getchar_timeout_us.
  unfold input_ok in Hin.
  destruct (rx m) as [|c r] eqn:Hrx.
  - change (PICO_ERROR_TIMEOUT =? PICO_ERROR_TIMEOUT) with true. cbn.
    exists None, m. unfold input_ok. rewrite Hrx. auto using reads_only_refl.
  - cbn in Hin. apply andb_prop in Hin as [Hc Hin].
    rewrite (byte_not_timeout _ Hc).
    set (m1 := set_rx r m).
    assert (line_ok m1 = true) as Hok1 by exact Hok.
    assert (reads_only m m1) as Hro1 by apply reads_only_set_rx.
    cbn in Hlen.
    destruct (on_char_cases c m1 Hok1) as [(Hnl & Hpos & E)|[(Hnl & Hpr & Hpos & E)|E]];
      rewrite (bind_Ok _ _ _ _ _ E).
    + exists (Some (accumulated m1)), (emit_line m1).
      split; [reflexivity|]. split; [apply line_ok_emit; exact Hok1|].
      split; [exact Hin|].
      split; [eapply reads_only_trans; [exact Hro1|apply reads_only_emit]|].
      split; [|reflexivity].
      intros Hnil. pose proof (accumulated_length m1 Hok1) as Hl.
      rewrite Hnil in Hl. cbn [length] in Hl. lia.
    + destruct (IH (append_char c m1)) as (r' & m' & E' & Hok' & Hin' & Hro' & Hr').
      * apply line_ok_append; assumption.
      * exact Hin.
      * cbn. lia.
      * exists r', m'. split; [exact E'|]. split; [exact Hok'|].
        split; [exact Hin'|]. split; [|exact Hr'].
        eapply reads_only_trans; [exact Hro1|].
        eapply reads_only_trans; [apply reads_only_append|exact Hro'].
    + destruct (IH m1) as (r' & m' & E' & Hok' & Hin' & Hro' & Hr').
      * exact Hok1.
      * exact Hin.
      * cbn. lia.
      * exists r', m'. split; [exact E'|]. split; [exact Hok'|].
        split; [exact Hin'|]. split; [|exact Hr'].
        eapply reads_only_trans; [exact Hro1|exact Hro'].
Qed.

Lemma readSerialLine_total m :
  line_ok m = true -> input_ok m = true ->
  exists r m',
    readSerialLine m = Ok r m' /\ line_ok m' = true /\ input_ok m' = true /\
    reads_only m m' /\
    match r with
    | Some line => line <> [] /\ pos m' = 0
    | None => rx m' = []
    end.
Proof.
  intros Hok Hin. unfold readSerialLine, bind, get.
  apply read_loop_total; try assumption. lia.
Qed.

(** A line longer than the buffer comes out cut to 255 characters. *)
Lemma read_loop_line fuel text nl rest m :
  line_ok m = true ->
  forallb printable text = true -> is_newline nl = true ->
  rx m = text ++ nl :: rest ->
  accumulated m ++ text <> [] ->
  (length text < fuel)%nat ->
  exists m', read_loop fuel m = Ok (Some (take 255 (accumulated m ++ text))) m' /\
             rx m' = rest /\ pos m' = 0.
Proof.
  revert text m. induction fuel as [|fuel IH]; intros text m Hok Htext Hnl Hrx Hne Hlen; [lia|].
  cbn [read_loop]. unfold bind at 1, getchar_timeout_us. rewrite Hrx.
  pose proof (accumulated_length m Hok) as Hacc.
  pose proof (line_ok_inv m Hok) as (Hp & _ & _).
  destruct text as [|c text]; cbn [app].
  - assert ((nl =? PICO_ERROR_TIMEOUT) = false) as ->.
    { unfold is_newline in Hnl. apply orb_prop in Hnl as [H|H];
        apply Z.eqb_eq in H; subst; reflexivity. }
    rewrite app_nil_r in *.
    assert (0 < pos m) as Hpos.
    { destruct (accumulated m); [congruence|]. cbn in Hacc. lia. }
    erewrite bind_Ok by (apply on_char_emit; [exact Hok|exact Hnl|exact Hpos]).
    exists (emit_line (set_rx rest m)). split; [|split; reflexivity].
    cbn. rewrite take_ge; [reflexivity|].
    change (accumulated (set_rx rest m)) with (accumulated m). lia.
  - cbn in Htext. apply andb_prop in Htext as [Hc Htext].
    assert ((c =? PICO_ERROR_TIMEOUT) = false) as ->.
    { unfold printable in Hc. apply andb_prop in Hc as [Hc _].
      apply Z.leb_le in Hc. apply Z.eqb_neq. unfold PICO_ERROR_TIMEOUT. lia. }
    assert (is_newline c = false) as Hcnl.
    { unfold printable in Hc. apply andb_prop in Hc as [Hc _].
      apply Z.leb_le in Hc. unfold is_newline.
      apply orb_false_iff. split; apply Z.eqb_neq; lia. }
    set (m1 := set_rx (text ++ nl :: rest) m).
    assert (line_ok m1 = true) as Hok1 by exact Hok.
    cbn in Hlen.
    destruct (Z_lt_le_dec (pos m) 255) as [Hpos|Hpos].
    + erewrite bind_Ok by (apply on_char_append; [exact Hcnl|exact Hc|cbn; lia]).
      destruct (IH text (append_char c m1)) as (m' & E & Hrx' & Hpos').
      * apply line_ok_append; assumption.
      * exact Htext.
      * exact Hnl.
      * reflexivity.
      * rewrite accumulated_append by assumption. destruct (accumulated m1); discriminate.
      * lia.
      * exists m'. rewrite E. rewrite accumulated_append by assumption.
        rewrite <- app_assoc. cbn. auto.
    + erewrite bind_Ok by (apply on_char_discard; [exact Hcnl|right; exact Hpos]).
      destruct (IH text m1) as (m' & E & Hrx' & Hpos').
      * exact Hok1.
      * exact Htext.
      * exact Hnl.
      * reflexivity.
      * change (accumulated m1) with (accumulated m).
        destruct (accumulated m); [cbn in Hacc; lia|discriminate].
      * lia.
      * exists m'. rewrite E. change (accumulated m1) with (accumulated m).
        rewrite !take_app_le by lia. auto.
Qed.

(** C5: what readSerialLine does with one byte [c].  CR or LF with text
    in the buffer returns that text and sets the cursor to 0; CR or LF
    with an empty buffer changes nothing and returns no line; a printable
    byte is appended when the cursor is below 255; any other byte, and
    any byte at cursor 255, changes nothing.  The cursor stays within
    [0, 255], no returned line is empty, and a line of more than 255
    printable bytes is returned cut to its first 255. *)
Theorem line_assembler_step (c : Z) (m : machine) (Hok : line_ok m = true) :
  (is_newline c = true -> 0 < pos m ->
     on_char c m = Ok (Some (accumulated m)) (emit_line m) /\
     pos (emit_line m) = 0 /\ accumulated m <> []) /\
  (is_newline c = true -> pos m = 0 -> on_char c m = Ok None m) /\
  (is_newline c = false -> printable c = true -> pos m < 255 ->
     on_char c m = Ok None (append_char c m) /\
     accumulated (append_char c m) = accumulated m ++ [c] /\
     pos (append_char c m) = pos m + 1) /\
  (is_newline c = false -> printable c = false \/ pos m = 255 ->
     on_char c m = Ok None m) /\
  (exists r m',
     on_char c m = Ok r m' /\ line_ok m' = true /\ 0 <= pos m' <= 255 /\
     forall line, r = Some line -> line <> []) /\
  (forall text nl rest,
     forallb printable text = true -> text <> [] -> is_newline nl = true ->
     pos m = 0 -> rx m = text ++ nl :: rest ->
     exists m', readSerialLine m = Ok (Some (take 255 text)) m' /\
                rx m' = rest /\ pos m' = 0).
Proof.
  pose proof (line_ok_inv m Hok) as (Hp & Hlen & Hall).
  pose proof (accumulated_length m Hok) as Hacc.
  assert (0 < pos m -> accumulated m <> []) as Hne.
  { intros Hpos Hnil. rewrite Hnil in Hacc. cbn in Hacc. lia. }
  split; [|split; [|split; [|split; [|split]]]].
  - intros Hnl Hpos. split; [apply on_char_emit; assumption|]. split; [reflexivity|auto].
  - intros Hnl Hpos. apply on_char_empty; [assumption|lia].
  - intros Hnl Hpr Hpos. split; [apply on_char_append; try assumption; lia|].
    split; [apply accumulated_append; assumption|reflexivity].
  - intros Hnl [Hpr|Hpos]; apply on_char_discard; auto. right. lia.
  - destruct (on_char_cases c m Hok) as [(Hnl & Hpos & E)|[(Hnl & Hpr & Hpos & E)|E]].
    + exists (Some (accumulated m)), (emit_line m).
      split; [exact E|]. split; [apply line_ok_emit; exact Hok|].
      split; [cbn; lia|]. intros line H. injection H as <-. auto.
    + exists None, (append_char c m).
      split; [exact E|]. split; [apply line_ok_append; assumption|].
      split; [cbn; lia|]. discriminate.
    + exists None, m. split; [exact E|]. split; [exact Hok|].
      split; [exact Hp|]. discriminate.
  - intros text nl rest Htext Hne' Hnl Hpos Hrx.
    unfold readSerialLine, bind, get.
    assert (accumulated m = []) as Hnil.
    { unfold accumulated. rewrite Hpos. reflexivity. }
    destruct (read_loop_line (S (length (rx m))) text nl rest m Hok Htext Hnl Hrx)
      as (m' & E & H1 & H2).
    + rewrite Hnil. exact Hne'.
    + rewrite Hrx, length_app. lia.
    + rewrite Hnil in E. exists m'. auto.
Qed.

(** ** handleCommands leaves the serial side alone *)

Lemma effects_frame {A} (f : machine -> A) :
  (forall ch x m, f (accept ch x m) = f m) ->
  (forall e m, f (log e m) = f m) ->
  forall toks m, f (effects toks m) = f m.
Proof.
  intros Ha Hl toks. induction toks as [|t toks IH]; intros m; [reflexivity|].
  cbn. fold (effects toks (token_effect t m)). rewrite IH. unfold token_effect.
  destruct (fields t) as [c|]; [|reflexivity].
  destruct (valid c); [apply Ha|apply Hl].
Qed.

Lemma handled_app t1 t2 : handled (t1 ++ t2) = (handled t1 + handled t2)%nat.
Proof. unfold handled. rewrite List.filter_app, length_app. reflexivity. Qed.

Lemma slept_app ms t1 t2 : slept ms (t1 ++ t2) = (slept ms t1 + slept ms t2)%nat.
Proof. unfold slept. rewrite List.filter_app, length_app. reflexivity. Qed.

Lemma token_events_quiet toks ms :
  handled (concat (map token_events toks)) = 0%nat /\
  slept ms (concat (map token_events toks)) = 0%nat.
Proof.
  induction toks as [|t toks [IH1 IH2]]; [split; reflexivity|].
  cbn [map concat]. rewrite handled_app, slept_app, IH1, IH2. unfold token_events.
  destruct (fields t) as [c|]; [|split; reflexivity].
  destruct (valid c); split; reflexivity.
Qed.

Lemma line_index_quiet new ms :
  forallb is_line_index new = true ->
  handled new = 0%nat /\ slept ms new = 0%nat.
Proof.
  induction new as [|e new IH]; intros H; [split; reflexivity|].
  cbn in H. apply andb_prop in H as [He H]. destruct (IH H) as [IH1 IH2].
  destruct e as [[] ?| | | |]; try discriminate. split; assumption.
Qed.

(** What handleCommands does to the machine, field by field. *)
Lemma handleCommands_frame v line m :
  ready m = true ->
  exists m',
    handleCommands v line m = Ok tt m' /\ ready m' = true /\
    buffer m' = buffer m /\ pos m' = pos m /\ rx m' = rx m /\
    user_sw m' = user_sw m /\ now m' = now m /\
    handled (trace m') = S (handled (trace m)) /\
    (forall ms, slept ms (trace m') = slept ms (trace m)) /\
    (has_leds v = true -> led_bar m' = <[COMMAND_LED := RGB 0 0 128]> (led_bar m)).
Proof.
  intros Hr. eexists. split; [apply handleCommands_effects; exact Hr|].
  split; [apply ready_effects; rewrite ready_enter; exact Hr|].
  split; [rewrite (effects_frame buffer) by reflexivity; destruct v; reflexivity|].
  split; [rewrite (effects_frame pos) by reflexivity; destruct v; reflexivity|].
  split; [rewrite (effects_frame rx) by reflexivity; destruct v; reflexivity|].
  split; [rewrite (effects_frame user_sw) by reflexivity; destruct v; reflexivity|].
  split; [rewrite (effects_frame now) by reflexivity; destruct v; reflexivity|].
  rewrite trace_effects, trace_enter.
  split; [|split].
  - rewrite !handled_app. rewrite (proj1 (token_events_quiet _ 0)). cbn. lia.
  - intros ms. rewrite !slept_app. rewrite (proj2 (token_events_quiet _ ms)). cbn. lia.
  - intros Hv. rewrite (effects_frame led_bar) by reflexivity.
    destruct v; [discriminate|reflexivity].
Qed.

(** ** The main loop *)

Lemma ledWelcomeAnimation_effect m : ledWelcomeAnimation m = Ok tt (animate m).
Proof.
  cbv -[app Z.add Z.mul]. f_equal. f_equal.
  - lia.
  - rewrite <- !app_assoc. reflexivity.
Qed.

Lemma poll_button_effect m : poll_button m = Ok tt (after_poll m).
Proof.
  unfold poll_button, after_poll, bind, user_sw_read.
  destruct (user_sw m) as [|[] r]; try reflexivity.
  unfold printf, emit, modify. apply ledWelcomeAnimation_effect.
Qed.

Lemma after_poll_frame m :
  currentPositions (after_poll m) = currentPositions m /\
  servos (after_poll m) = servos m /\
  buffer (after_poll m) = buffer m /\ pos (after_poll m) = pos m /\
  rx (after_poll m) = rx m /\
  handled (trace (after_poll m)) = handled (trace m) /\
  slept 1 (trace (after_poll m)) = slept 1 (trace m).
Proof.
  unfold after_poll. destruct (user_sw m) as [|[] r]; repeat split; try reflexivity.
  - cbn [animate trace log set_user_sw]. rewrite !handled_app.
    change (handled [EvPrintf MsgButton]) with 0%nat.
    change (handled animation_events) with 0%nat. lia.
  - cbn [animate trace log set_user_sw]. rewrite !slept_app.
    change (slept 1 [EvPrintf MsgButton]) with 0%nat.
    change (slept 1 animation_events) with 0%nat. lia.
Qed.

Lemma tick_frame l m :
  exists l' m',
    tick l m = Ok l' m' /\
    currentPositions m' = currentPositions m /\ servos m' = servos m /\
    buffer m' = buffer m /\ pos m' = pos m /\ rx m' = rx m /\
    trace m' = trace m.
Proof.
  unfold tick. destruct (command_led_active l); [|exists l, m; repeat split].
  unfold bind, get_absolute_time, get.
  destruct (0 <? absolute_time_diff_us (command_led_off_time l) (now m)).
  - do 2 eexists. split; [reflexivity|]. repeat split.
  - exists l, m. repeat split.
Qed.

Lemma ready_fields m m' :
  currentPositions m' = currentPositions m -> servos m' = servos m ->
  ready m' = ready m.
Proof. unfold ready. intros -> ->. reflexivity. Qed.

Lemma line_ok_fields m m' :
  buffer m' = buffer m -> pos m' = pos m -> line_ok m' = line_ok m.
Proof. unfold line_ok, accumulated. intros -> ->. reflexivity. Qed.

Lemma input_ok_fields m m' : rx m' = rx m -> input_ok m' = input_ok m.
Proof. unfold input_ok. intros ->. reflexivity. Qed.

Lemma reads_only_quiet m m' :
  reads_only m m' ->
  handled (trace m') = handled (trace m) /\
  forall ms, slept ms (trace m') = slept ms (trace m).
Proof.
  intros [_ _ _ _ _ _ (new & -> & Hq)]. split.
  - rewrite handled_app, (proj1 (line_index_quiet new 0 Hq)). lia.
  - intros ms. rewrite slept_app, (proj2 (line_index_quiet new ms Hq)). lia.
Qed.

Lemma drain_spec v rounds :
  forall had l m,
    ready m = true -> line_ok m = true -> input_ok m = true ->
    exists had' l' m',
      drain v rounds had l m = Ok (had', l') m' /\
      ready m' = true /\ line_ok m' = true /\ input_ok m' = true /\
      (handled (trace m) <= handled (trace m') <= handled (trace m) + rounds)%nat /\
      had' = had || negb (handled (trace m') =? handled (trace m))%nat /\
      slept 1 (trace m') = slept 1 (trace m) /\
      ((handled (trace m') < handled (trace m) + rounds)%nat -> rx m' = []).
Proof.
  induction rounds as [|rounds IH]; intros had l m Hr Hl Hi.
  - exists had, l, m. cbn. rewrite Nat.eqb_refl, orb_false_r.
    repeat split; auto; lia.
  - cbn [drain].
    destruct (readSerialLine_total m Hl Hi) as (r & m1 & E1 & Hl1 & Hi1 & Hro & Hres).
    rewrite (bind_Ok _ _ _ _ _ E1).
    pose proof (reads_only_quiet _ _ Hro) as [Hh1 Hs1].
    assert (ready m1 = true) as Hr1.
    { rewrite (ready_fields m m1); [exact Hr|apply Hro|apply Hro]. }
    destruct r as [line|].
    + destruct (handleCommands_frame v line m1 Hr1)
        as (m2 & E2 & Hr2 & Hb & Hp & Hrx & _ & _ & Hh2 & Hs2 & _).
      rewrite (bind_Ok _ _ _ _ _ E2).
      assert (line_ok m2 = true) as Hl2 by (rewrite (line_ok_fields m1 m2); assumption).
      assert (input_ok m2 = true) as Hi2 by (rewrite (input_ok_fields m1 m2); assumption).
      assert (exists l2, (if has_leds v
                          then let* t := make_timeout_time_ms 150 in
                               drain v rounds true (mkLocals t true)
                          else drain v rounds true l) m2 =
                         drain v rounds true l2 m2) as [l2 ->].
      { destruct v; cbn; eexists; reflexivity. }
      destruct (IH true l2 m2 Hr2 Hl2 Hi2)
        as (had' & l' & m' & E & Hr' & Hl' & Hi' & Hcount & Hhad & Hs' & Hrx').
      exists had', l', m'. split; [exact E|].
      rewrite Hh2, Hh1 in *. rewrite Hs2, Hs1 in Hs'.
      repeat split; try assumption; try lia.
      * rewrite Hhad. cbn. destruct had; cbn; [reflexivity|].
        symmetry. apply negb_true_iff, Nat.eqb_neq. lia.
      * intros H. apply Hrx'. lia.
    + exists had, l, m1. split; [reflexivity|].
      rewrite Hh1, Hs1, Nat.eqb_refl, orb_false_r.
      repeat split; auto; lia.
Qed.

Lemma main_iteration_split v l m :
  main_iteration v l m =
  after_button v l (if has_leds v then after_poll m else m).
Proof.
  unfold main_iteration, after_button. destruct v; cbn -[drain]; [reflexivity|].
  rewrite (bind_Ok _ _ _ _ _ (poll_button_effect m)). reflexivity.
Qed.

Lemma sleep_ms_effect ms m :
  sleep_ms ms m = Ok tt (set_now (now m + ms * 1000) (log (EvSleep ms) m)).
Proof. reflexivity. Qed.

Lemma after_button_spec v l m :
  ready m = true -> line_ok m = true -> input_ok m = true ->
  exists l' m',
    after_button v l m = Ok l' m' /\
    (handled (trace m) <= handled (trace m') <= handled (trace m) + 100)%nat /\
    slept 1 (trace m') =
      (slept 1 (trace m) +
       (if (handled (trace m') =? handled (trace m))%nat then 1 else 0))%nat /\
    ((handled (trace m') < handled (trace m) + 100)%nat -> rx m' = []) /\
    ready m' = true /\ line_ok m' = true /\ input_ok m' = true.
Proof.
  intros Hr Hl Hi. unfold after_button.
  assert (exists l1 m1,
             (if has_leds v then tick l else ret l) m = Ok l1 m1 /\
             currentPositions m1 = currentPositions m /\ servos m1 = servos m /\
             buffer m1 = buffer m /\ pos m1 = pos m /\ rx m1 = rx m /\
             trace m1 = trace m) as (l1 & m1 & E1 & F1 & F2 & F3 & F4 & F5 & F6).
  { destruct (has_leds v); [apply tick_frame|]. exists l, m. repeat split. }
  rewrite (bind_Ok _ _ _ _ _ E1).
  assert (ready m1 = true) as Hr1 by (rewrite (ready_fields m m1); assumption).
  assert (line_ok m1 = true) as Hl1 by (rewrite (line_ok_fields m m1); assumption).
  assert (input_ok m1 = true) as Hi1 by (rewrite (input_ok_fields m m1); assumption).
  destruct (drain_spec v 100 false l1 m1 Hr1 Hl1 Hi1)
    as (had & l2 & m2 & E2 & Hr2 & Hl2 & Hi2 & Hcount & Hhad & Hs & Hrx).
  rewrite (bind_Ok _ _ _ _ _ E2). cbn [fst snd]. rewrite F6 in *.
  cbn in Hhad. subst had. rewrite negb_involutive.
  destruct (handled (trace m2) =? handled (trace m))%nat eqn:Eh.
  - apply Nat.eqb_eq in Eh. cbn [negb when].
    rewrite (bind_Ok _ _ _ _ _ (sleep_ms_effect 1 m2)). unfold ret.
    do 2 eexists. split; [reflexivity|].
    cbn [trace set_now log rx]. rewrite handled_app, slept_app, Hs.
    change (handled [EvSleep 1]) with 0%nat.
    change (slept 1 [EvSleep 1]) with 1%nat.
    rewrite Nat.add_0_r, Eh, Nat.eqb_refl.
    split; [lia|]. split; [reflexivity|]. split; [intros _; apply Hrx; lia|].
    split; [exact Hr2|]. split; [exact Hl2|exact Hi2].
  - cbn [negb when]. unfold bind, ret. exists l2, m2. split; [reflexivity|].
    rewrite Eh, Hs.
    split; [lia|]. split; [lia|]. split; [exact Hrx|].
    split; [exact Hr2|]. split; [exact Hl2|exact Hi2].
Qed.

Lemma main_iteration_spec v l m :
  ready m = true -> line_ok m = true -> input_ok m = true ->
  exists l' m',
    main_iteration v l m = Ok l' m' /\
    (handled (trace m) <= handled (trace m') <= handled (trace m) + 100)%nat /\
    slept 1 (trace m') =
      (slept 1 (trace m) +
       (if (handled (trace m') =? handled (trace m))%nat then 1 else 0))%nat /\
    ((handled (trace m') < handled (trace m) + 100)%nat -> rx m' = []) /\
    ready m' = true /\ line_ok m' = true /\ input_ok m' = true.
Proof.
  intros Hr Hl Hi. rewrite main_iteration_split.
  set (m0 := if has_leds v then after_poll m else m).
  assert (currentPositions m0 = currentPositions m /\ servos m0 = servos m /\
          buffer m0 = buffer m /\ pos m0 = pos m /\ rx m0 = rx m /\
          handled (trace m0) = handled (trace m) /\
          slept 1 (trace m0) = slept 1 (trace m)) as (F1 & F2 & F3 & F4 & F5 & F6 & F7).
  { unfold m0. destruct (has_leds v); [apply after_poll_frame|repeat split]. }
  destruct (after_button_spec v l m0) as (l' & m' & E & H).
  - rewrite (ready_fields m m0); assumption.
  - rewrite (line_ok_fields m m0); assumption.
  - rewrite (input_ok_fields m m0); assumption.
  - exists l', m'. rewrite F6, F7 in H. split; [exact E|exact H].
Qed.

(** Every round of the loop goes through, whatever the number of rounds. *)
Lemma main_loop_spec v n :
  forall l m,
    ready m = true -> line_ok m = true -> input_ok m = true ->
    exists l' m',
      main_loop v n l m = Ok l' m' /\
      (handled (trace m') <= handled (trace m) + 100 * n)%nat /\
      ready m' = true /\ line_ok m' = true /\ input_ok m' = true.
Proof.
  induction n as [|n IH]; intros l m Hr Hl Hi.
  - exists l, m. split; [reflexivity|]. split; [lia|auto].
  - cbn [main_loop].
    destruct (main_iteration_spec v l m Hr Hl Hi)
      as (l1 & m1 & E1 & Hc1 & _ & _ & Hr1 & Hl1 & Hi1).
    rewrite (bind_Ok _ _ _ _ _ E1).
    destruct (IH l1 m1 Hr1 Hl1 Hi1) as (l' & m' & E & Hc & Hr' & Hl' & Hi').
    exists l', m'. split; [exact E|]. split; [lia|auto].
Qed.

(** C7: one round of the main loop handles at most 100 lines, stops
    earlier only when no byte is pending any more, and sleeps 1 ms at its
    end exactly when it handled no line; this holds round after round,
    so n rounds handle at most 100 n lines.  With 250 lines pending, the
    round handles 100 of them, does not sleep and leaves 150. *)
Theorem drain_bound (v : build) (l : locals) (m : machine)
    (Hr : ready m = true) (Hl : line_ok m = true) (Hi : input_ok m = true) :
  (exists l' m',
     main_iteration v l m = Ok l' m' /\
     (handled (trace m) <= handled (trace m') <= handled (trace m) + 100)%nat /\
     slept 1 (trace m') =
       (slept 1 (trace m) +
        (if (handled (trace m') =? handled (trace m))%nat then 1 else 0))%nat /\
     ((handled (trace m') < handled (trace m) + 100)%nat -> rx m' = []) /\
     ready m' = true /\ line_ok m' = true /\ input_ok m' = true) /\
  (forall n, exists l' m',
     main_loop v n l m = Ok l' m' /\
     (handled (trace m') <= handled (trace m) + 100 * n)%nat) /\
  (exists l' m',
     main_iteration v (mkLocals 0 false) (after_setup v (burst 250) [] 0) = Ok l' m' /\
     handled (trace m') = 100%nat /\ slept 1 (trace m') = 0%nat /\
     rx m' = burst 150).
Proof.
  split; [apply main_iteration_spec; assumption|]. split.
  - intros n. destruct (main_loop_spec v n l m Hr Hl Hi) as (l' & m' & E & Hc & _).
    exists l', m'. auto.
  - destruct v; vm_compute; do 2 eexists; repeat split.
Qed.

(** ** The manual trigger *)

(** C9, as the code has it: when the button reads pressed, the round
    first prints and runs the animation to its end, which sleeps four
    times 200 ms and touches neither the pending input nor the line
    buffer nor the channels; the same round then goes on with the LED
    timer and the drain, from the machine the animation left. *)
Theorem trigger_runs_animation_first (l : locals) (m : machine) (r : list bool)
    (Hsw : user_sw m = true :: r) :
  let m1 := animate (log (EvPrintf MsgButton) (set_user_sw r m)) in
  poll_button m = Ok tt m1 /\
  rx m1 = rx m /\ buffer m1 = buffer m /\ pos m1 = pos m /\
  currentPositions m1 = currentPositions m /\ servos m1 = servos m /\
  trace m1 = trace m ++ EvPrintf MsgButton :: animation_events /\
  now m1 = now m + 800000 /\
  main_iteration WithLeds l m = after_button WithLeds l m1.
Proof.
  cbn zeta.
  assert (after_poll m = animate (log (EvPrintf MsgButton) (set_user_sw r m))) as E.
  { unfold after_poll. rewrite Hsw. reflexivity. }
  split; [rewrite poll_button_effect, E; reflexivity|].
  repeat split.
  - cbn. rewrite <- app_assoc. reflexivity.
  - rewrite main_iteration_split. cbn [has_leds]. rewrite E. reflexivity.
Qed.

(** The claim of C9 as worded fails: a round that finds the button
    pressed still drains the pending line. *)
Lemma trigger_round_still_drains :
  ~ (forall (l l' : locals) (m m' : machine) (r : list bool),
       ready m = true -> line_ok m = true -> input_ok m = true ->
       user_sw m = true :: r ->
       main_iteration WithLeds l m = Ok l' m' ->
       handled (trace m') = handled (trace m)).
Proof.
  intros H.
  set (m := after_setup WithLeds (C.of_string "3,50" ++ [10]) [true] 0).
  destruct (main_iteration WithLeds (mkLocals 0 false) m) as [l' m'|] eqn:E;
    [|vm_compute in E; discriminate].
  specialize (H (mkLocals 0 false) l' m m' [] eq_refl eq_refl eq_refl eq_refl E).
  vm_compute in E. injection E as <- <-. vm_compute in H. discriminate.
Qed.

(** ** The command LED timer *)

Lemma to_int64_small z : - 2 ^ 63 <= z < 2 ^ 63 -> to_int64 z = z.
Proof. intros H. unfold to_int64. rewrite Z.mod_small by lia. lia. Qed.

Lemma clock_ok_inv m : clock_ok m = true -> 0 <= now m < INT64_MAX - 1000000.
Proof.
  unfold clock_ok. intros H. apply andb_prop in H as [H1 H2].
  apply Z.leb_le in H1. apply Z.ltb_lt in H2. lia.
Qed.

Lemma tick_active l m :
  command_led_active l = true ->
  0 <= command_led_off_time l <= INT64_MAX -> clock_ok m = true ->
  tick l m =
  if command_led_off_time l <? now m
  then Ok (mkLocals (command_led_off_time l) false)
          (set_led_bar (<[COMMAND_LED := RGB 0 0 0]> (led_bar m)) m)
  else Ok l m.
Proof.
  intros Ha Hoff Hc. apply clock_ok_inv in Hc. unfold INT64_MAX in *.
  unfold tick, bind, get_absolute_time, get, absolute_time_diff_us. rewrite Ha.
  rewrite to_int64_small by lia.
  destruct (command_led_off_time l <? now m) eqn:E.
  - apply Z.ltb_lt in E. assert ((0 <? now m - command_led_off_time l) = true) as ->
      by (apply Z.ltb_lt; lia). reflexivity.
  - apply Z.ltb_ge in E. assert ((0 <? now m - command_led_off_time l) = false) as ->
      by (apply Z.ltb_ge; lia). reflexivity.
Qed.

(** C6, as the code has it: every line that readSerialLine returns,
    whatever its tokens, turns the command LED blue and sets the timer to
    the clock plus 150 ms with the flag raised, also when the flag was up
    already; on any machine, with or without input pending, a tick with
    the flag up clears the LED and the flag when the clock is strictly
    past the timer, and does nothing while the clock is at or before it;
    a tick with the flag down does nothing. *)
Theorem command_led_timer (l : locals) (m : machine) :
  (forall (rounds : nat) (had : bool) (line : C.cstring) (m1 : machine),
     ready m = true -> line_ok m = true -> input_ok m = true ->
     clock_ok m = true ->
     readSerialLine m = Ok (Some line) m1 ->
     exists m2,
       handleCommands WithLeds line m1 = Ok tt m2 /\
       led_bar m2 = <[COMMAND_LED := RGB 0 0 128]> (led_bar m) /\
       now m2 = now m /\
       drain WithLeds (S rounds) had l m =
       drain WithLeds rounds true (mkLocals (now m + 150 * 1000) true) m2) /\
  (command_led_active l = true -> clock_ok m = true ->
   0 <= command_led_off_time l <= INT64_MAX ->
     (command_led_off_time l < now m ->
        tick l m = Ok (mkLocals (command_led_off_time l) false)
                      (set_led_bar (<[COMMAND_LED := RGB 0 0 0]> (led_bar m)) m)) /\
     (now m <= command_led_off_time l -> tick l m = Ok l m)) /\
  (command_led_active l = false -> tick l m = Ok l m).
Proof.
  split; [|split].
  - intros rounds had line m1 Hr Hl Hi Hc Hline.
    destruct (readSerialLine_total m Hl Hi) as (r & m1' & E1 & _ & _ & Hro & _).
    rewrite Hline in E1. injection E1 as <- <-.
    assert (ready m1 = true) as Hr1.
    { rewrite (ready_fields m m1); [exact Hr|apply Hro|apply Hro]. }
    destruct (handleCommands_frame WithLeds line m1 Hr1)
      as (m2 & E2 & _ & _ & _ & _ & _ & Hnow & _ & _ & Hled).
    exists m2. split; [exact E2|].
    split; [rewrite (Hled eq_refl), (ro_led_bar _ _ Hro); reflexivity|].
    split; [rewrite Hnow; apply Hro|].
    cbn [drain]. rewrite (bind_Ok _ _ _ _ _ Hline), (bind_Ok _ _ _ _ _ E2).
    cbn [has_leds]. unfold make_timeout_time_ms, bind, get_absolute_time, get, ret.
    rewrite Hnow, (ro_now _ _ Hro).
    apply clock_ok_inv in Hc. unfold INT64_MAX in *.
    rewrite Z.min_l by lia. reflexivity.
  - intros Ha Hc Hoff. split.
    + intros Hlt. rewrite tick_active by assumption.
      apply Z.ltb_lt in Hlt. rewrite Hlt. reflexivity.
    + intros Hle. rewrite tick_active by assumption.
      apply Z.ltb_ge in Hle. rewrite Hle. reflexivity.
  - intros Ha. unfold tick. rewrite Ha. reflexivity.
Qed.

(** The claim of C6 as worded fails at the instant of expiry: a tick
    whose clock reading equals the timer leaves the flag up. *)
Lemma tick_at_expiry_stays_flashing :
  ~ (forall (l l' : locals) (m m' : machine),
       command_led_active l = true -> clock_ok m = true ->
       0 <= command_led_off_time l <= INT64_MAX ->
       tick l m = Ok l' m' ->
       (command_led_active l' = false <-> command_led_off_time l <= now m)).
Proof.
  intros H.
  specialize (H (mkLocals 150000 true) (mkLocals 150000 true)
                (boot [] [] 150000) (boot [] [] 150000)
                eq_refl eq_refl ltac:(vm_compute; split; discriminate) eq_refl).
  cbn in H. destruct H as [_ H]. specialize (H ltac:(lia)). discriminate.
Qed.

(** ** setup *)

Lemma setup_Ok v input button t :
  setup v (boot input button t) = Ok tt (after_setup v input button t).
Proof. destruct v; vm_compute; reflexivity. Qed.

(** C8, as the code has it: setup ends without fault with every stored
    position at 0 and every servo created on its pin, initialised,
    calibrated from MIN_ANGLE to MAX_ANGLE and enabled, each channel
    enabled exactly once and in order; setup makes no pulse call, so no
    servo has a pulse width set by the firmware. *)
Theorem setup_initializes (v : build) (input : list Z) (button : list bool) (t : Z) :
  let m' := after_setup v input button t in
  setup v (boot input button t) = Ok tt m' /\
  currentPositions m' = replicate 18 0 /\
  servos m' = map configured_servo (seqZ 1 18) /\
  enables (trace m') = seqZ 0 18 /\
  pulses (trace m') = [] /\
  ready m' = true /\ line_ok m' = true /\
  rx m' = input /\ user_sw m' = button /\ now m' = t.
Proof.
  destruct v; vm_compute; repeat split.
Qed.

(** The claim of C8 as worded fails: setup never calls [pulse], so no
    channel has received the width 1500.0 once. *)
Lemma setup_sends_no_pulse :
  ~ (forall (v : build) (input : list Z) (button : list bool) (t : Z) (m' : machine),
       setup v (boot input button t) = Ok tt m' ->
       forall ch, 0 <= ch < NUM_SERVOS -> neutral_pulse_calls ch (trace m') = 1%nat).
Proof.
  intros H.
  specialize (H Plain [] [] 0 (after_setup Plain [] [] 0)
                (setup_Ok Plain [] [] 0) 0
                ltac:(unfold NUM_SERVOS; lia)).
  vm_compute in H. discriminate.
Qed.

(** * Worked instances *)

Lemma pulse_us_formula_at_35 :
  MIN_ANGLE <= 35 <= MAX_ANGLE /\
  pulse_us 35 = PositionMapper.pulse_us 35 /\
  (F32.to_Q (pulse_us 35) == 1625)%Q.
Proof.
  assert (MIN_ANGLE <= 35 <= MAX_ANGLE) as H by (unfold MIN_ANGLE, MAX_ANGLE; lia).
  split; [exact H|].
  destruct (pulse_us_formula 35 H) as (E & _ & _ & Hex & _).
  split; [exact E|]. rewrite (Hex eq_refl). reflexivity.
Defined.

Lemma rejected_segment_in_the_middle :
  exists m',
    handleCommands Plain (C.of_string "1,5;5,999;2,7") (bench Plain "" [] 0) = Ok tt m' /\
    currentPositions m' = [0; 5; 7; 0; 0; 0; 0; 0; 0; 0; 0; 0; 0; 0; 0; 0; 0; 0].
Proof.
  assert (~ (0 <= 5 < NUM_SERVOS) \/ ~ (MIN_ANGLE <= 999 <= MAX_ANGLE)) as Hbad
    by (right; unfold MIN_ANGLE, MAX_ANGLE; lia).
  destruct (rejected_segment_no_effect Plain (C.of_string "1,5;5,999;2,7")
              (bench Plain "" [] 0)
              [C.of_string "1,5"] [C.of_string "2,7"] (C.of_string "5,999") 5 999
              eq_refl eq_refl eq_refl Hbad)
    as (_ & _ & (E & Hp & _) & _).
  eexists. split; [exact E|]. rewrite Hp. vm_compute. reflexivity.
Defined.

Lemma parser_split_order_on_two_commands :
  exists m',
    handleCommands Plain (C.of_string "0,10;1,-20;") (bench Plain "" [] 0) = Ok tt m' /\
    pulses (trace m') = [(0, pulse_us 10); (1, pulse_us (-20))].
Proof.
  destruct (parser_split_order Plain (C.of_string "0,10;1,-20;")
              (bench Plain "" [] 0) eq_refl)
    as (m' & E & _ & Hp & _).
  exists m'. split; [exact E|]. rewrite Hp. vm_compute. reflexivity.
Defined.

Lemma last_write_wins_on_channel_3 :
  exists m',
    handleCommands WithLeds (C.of_string "3,50;3,-50;4,1") (bench WithLeds "" [] 0)
      = Ok tt m' /\
    currentPositions m' !! 3%nat = Some (-50).
Proof.
  destruct (last_write_wins WithLeds (C.of_string "3,50;3,-50;4,1")
              (bench WithLeds "" [] 0)
              [C.of_string "3,50"] [C.of_string "4,1"] (C.of_string "3,-50") 3 (-50)
              eq_refl eq_refl eq_refl eq_refl) as ((m' & E & Hp & _) & _).
  - intros s c [<-|[]] Hf _. vm_compute in Hf. injection Hf as <-. cbn. lia.
  - exists m'. split; [exact E|exact Hp].
Defined.

Lemma line_assembler_takes_a_letter :
  line_ok (boot [] [] 0) = true /\
  on_char 97 (boot [] [] 0) = Ok None (append_char 97 (boot [] [] 0)) /\
  accumulated (append_char 97 (boot [] [] 0)) = [97].
Proof.
  split; [reflexivity|].
  destruct (line_assembler_step 97 (boot [] [] 0) eq_refl) as (_ & _ & H & _).
  destruct (H eq_refl eq_refl ltac:(cbn; lia)) as (E & Ha & _).
  split; [exact E|exact Ha].
Defined.

Lemma command_led_timer_on_a_line :
  (tick (mkLocals 150000 true) (after_setup WithLeds [] [] 1150000) =
   Ok (mkLocals 150000 false)
      (set_led_bar
         (<[COMMAND_LED := RGB 0 0 0]> (led_bar (after_setup WithLeds [] [] 1150000)))
         (after_setup WithLeds [] [] 1150000))) /\
  (tick (mkLocals 150000 true) (after_setup WithLeds [] [] 150000) =
   Ok (mkLocals 150000 true) (after_setup WithLeds [] [] 150000)) /\
  (exists m2,
     handleCommands WithLeds (C.of_string "9,9")
       (first_line (bench WithLeds "9,9" [] 200000)) = Ok tt m2 /\
     led_bar m2 =
       <[COMMAND_LED := RGB 0 0 128]> (led_bar (bench WithLeds "9,9" [] 200000)) /\
     drain WithLeds 1 false (mkLocals 100 true) (bench WithLeds "9,9" [] 200000) =
     drain WithLeds 0 true (mkLocals (200000 + 150 * 1000) true) m2).
Proof.
  assert (0 <= command_led_off_time (mkLocals 150000 true) <= INT64_MAX) as Hoff
    by (vm_compute; split; discriminate).
  assert (clock_ok (after_setup WithLeds [] [] 1150000) = true) as Hc1
    by (vm_compute; reflexivity).
  assert (clock_ok (after_setup WithLeds [] [] 150000) = true) as Hc2
    by (vm_compute; reflexivity).
  assert (ready (bench WithLeds "9,9" [] 200000) = true) as Hr
    by (vm_compute; reflexivity).
  assert (line_ok (bench WithLeds "9,9" [] 200000) = true) as Hl
    by (vm_compute; reflexivity).
  assert (input_ok (bench WithLeds "9,9" [] 200000) = true) as Hi
    by (vm_compute; reflexivity).
  assert (clock_ok (bench WithLeds "9,9" [] 200000) = true) as Hc
    by (vm_compute; reflexivity).
  assert (readSerialLine (bench WithLeds "9,9" [] 200000) =
          Ok (Some (C.of_string "9,9")) (first_line (bench WithLeds "9,9" [] 200000)))
    as Hline by (vm_compute; reflexivity).
  split; [|split].
  - destruct (command_led_timer (mkLocals 150000 true)
                (after_setup WithLeds [] [] 1150000)) as (_ & H & _).
    destruct (H eq_refl Hc1 Hoff) as [Hpast _].
    apply Hpast. vm_compute. reflexivity.
  - destruct (command_led_timer (mkLocals 150000 true)
                (after_setup WithLeds [] [] 150000)) as (_ & H & _).
    destruct (H eq_refl Hc2 Hoff) as [_ Hat].
    apply Hat. vm_compute. discriminate.
  - destruct (command_led_timer (mkLocals 100 true)
                (bench WithLeds "9,9" [] 200000)) as (H & _).
    destruct (H 0%nat false (C.of_string "9,9")
                (first_line (bench WithLeds "9,9" [] 200000)) Hr Hl Hi Hc Hline)
      as (m2 & E & Hled & _ & Hdrain).
    exists m2. split; [exact E|]. split; [exact Hled|exact Hdrain].
Defined.

Lemma drain_bound_on_one_line :
  exists l' m',
    main_iteration Plain (mkLocals 0 false) (bench Plain "3,50" [] 0) = Ok l' m' /\
    (handled (trace m') <= handled (trace (bench Plain "3,50" [] 0)) + 100)%nat.
Proof.
  destruct (drain_bound Plain (mkLocals 0 false) (bench Plain "3,50" [] 0)
              eq_refl eq_refl eq_refl) as ((l' & m' & E & Hc & _) & _).
  exists l', m'. split; [exact E|apply Hc].
Defined.

Lemma trigger_runs_animation_first_on_a_press :
  main_iteration WithLeds (mkLocals 0 false) (bench WithLeds "3,50" [true] 0) =
  after_button WithLeds (mkLocals 0 false)
    (animate (log (EvPrintf MsgButton) (set_user_sw [] (bench WithLeds "3,50" [true] 0)))).
Proof.
  apply (trigger_runs_animation_first (mkLocals 0 false)
           (bench WithLeds "3,50" [true] 0) [] eq_refl).
Defined.

Lemma handler_indices_in_bounds_on_a_line :
  exists m' new,
    handleCommands Plain (C.of_string "5,999;3,50") (bench Plain "" [] 0) = Ok tt m' /\
    trace m' = trace (bench Plain "" [] 0) ++ new /\
    Forall index_in_bounds (indices new).
Proof.
  destruct (handler_indices_in_bounds Plain (C.of_string "5,999;3,50")
              (bench Plain "" [] 0) eq_refl) as (m' & new & E & Ht & Hf & _).
  exists m', new. auto.
Defined.

(** * Further properties *)

(** ** The pulse mapping over its range *)

Lemma pulse_range_all : forallb pulse_range_check angles = true.
Proof. vm_compute. reflexivity. Qed.

Lemma pulse_step_all : forallb pulse_step_check angles = true.
Proof. vm_compute. reflexivity. Qed.

(** X1: every angle of [-140, 140] is mapped to a pulse width between
    1000 and 2000 microseconds. *)
Theorem pulse_us_in_range (a : Z) (Ha : MIN_ANGLE <= a <= MAX_ANGLE) :
  (1000 <= F32.to_Q (pulse_us a) <= 2000)%Q.
Proof.
  pose proof (proj1 (forallb_forall _ _) pulse_range_all a (angles_complete a Ha)) as H.
  unfold pulse_range_check in H. apply andb_prop in H as [H1 H2].
  split; apply Qle_bool_iff; assumption.
Qed.

Lemma pulse_us_in_range_at_minus_70 :
  MIN_ANGLE <= -70 <= MAX_ANGLE /\ (1000 <= F32.to_Q (pulse_us (-70)) <= 2000)%Q.
Proof.
  assert (MIN_ANGLE <= -70 <= MAX_ANGLE) as H by (unfold MIN_ANGLE, MAX_ANGLE; lia).
  split; [exact H|]. exact (pulse_us_in_range (-70) H).
Defined.

Lemma pulse_step (a : Z) :
  MIN_ANGLE <= a < MAX_ANGLE ->
  (F32.to_Q (pulse_us a) < F32.to_Q (pulse_us (a + 1)))%Q.
Proof.
  intros Ha.
  assert (In a angles) as Hin by (apply angles_complete; lia).
  pose proof (proj1 (forallb_forall _ _) pulse_step_all a Hin) as H.
  unfold pulse_step_check in H. apply orb_prop in H as [H|H].
  - apply Z.leb_le in H. lia.
  - apply Qlt_alt.
    destruct (F32.to_Q (pulse_us a) ?= F32.to_Q (pulse_us (a + 1)))%Q;
      [discriminate|reflexivity|discriminate].
Qed.

Lemma pulse_steps (a : Z) (n : nat) :
  MIN_ANGLE <= a -> a + 1 + Z.of_nat n <= MAX_ANGLE ->
  (F32.to_Q (pulse_us a) < F32.to_Q (pulse_us (a + 1 + Z.of_nat n)))%Q.
Proof.
  intros Ha. induction n as [|n IH]; intros Hb.
  - replace (a + 1 + Z.of_nat 0) with (a + 1) by lia. apply pulse_step. lia.
  - eapply Qlt_trans; [apply IH; lia|].
    replace (a + 1 + Z.of_nat (S n)) with (a + 1 + Z.of_nat n + 1) by lia.
    apply pulse_step. lia.
Qed.

(** X2: over [-140, 140] a larger angle always gives a strictly longer
    pulse, so two different angles never share a pulse width. *)
Theorem pulse_us_increasing (a b : Z)
    (Ha : MIN_ANGLE <= a) (Hab : a < b) (Hb : b <= MAX_ANGLE) :
  (F32.to_Q (pulse_us a) < F32.to_Q (pulse_us b))%Q /\ pulse_us a <> pulse_us b.
Proof.
  assert (F32.to_Q (pulse_us a) < F32.to_Q (pulse_us b))%Q as Hlt.
  { replace b with (a + 1 + Z.of_nat (Z.to_nat (b - a - 1))) by lia.
    apply pulse_steps; lia. }
  split; [exact Hlt|]. intros E. rewrite E in Hlt.
  exact (Qlt_irrefl _ Hlt).
Qed.

Lemma pulse_us_increasing_from_0_to_1 :
  MIN_ANGLE <= 0 /\ 0 < 1 /\ 1 <= MAX_ANGLE /\
  (F32.to_Q (pulse_us 0) < F32.to_Q (pulse_us 1))%Q.
Proof.
  assert (MIN_ANGLE <= 0) as H1 by (unfold MIN_ANGLE; lia).
  assert (0 < 1) as H2 by lia.
  assert (1 <= MAX_ANGLE) as H3 by (unfold MAX_ANGLE; lia).
  split; [exact H1|]. split; [exact H2|]. split; [exact H3|].
  exact (proj1 (pulse_us_increasing 0 1 H1 H2 H3)).
Defined.

(** ** What a whole line does to the two arrays *)

Lemma handleCommands_after_line v line m :
  ready m = true -> handleCommands v line m = Ok tt (after_line v line m).
Proof. apply handleCommands_effects. Qed.

Lemma currentPositions_after_line v line m :
  currentPositions (after_line v line m) =
  foldl store (currentPositions m) (parse (C.c_str line)).
Proof.
  unfold after_line. rewrite currentPositions_effects, currentPositions_enter.
  reflexivity.
Qed.

Lemma servos_after_line v line m :
  servos (after_line v line m) = foldl pulse_store (servos m) (parse (C.c_str line)).
Proof.
  unfold after_line. rewrite servos_effects, servos_enter. reflexivity.
Qed.

Lemma pulses_after_line v line m :
  pulses (trace (after_line v line m)) =
  pulses (trace m) ++ map (fun c => (fst c, pulse_us (snd c))) (parse (C.c_str line)).
Proof.
  unfold after_line.
  rewrite trace_effects, trace_enter, !pulses_app, pulses_token_events.
  cbn [pulses omap list_omap pulse_of]. rewrite app_nil_r. reflexivity.
Qed.

Lemma ready_after_line v line m : ready m = true -> ready (after_line v line m) = true.
Proof. intros H. unfold after_line. apply ready_effects. rewrite ready_enter. exact H. Qed.

Lemma led_bar_after_line v line m :
  led_bar (after_line v line m) =
  if has_leds v then <[COMMAND_LED := RGB 0 0 128]> (led_bar m) else led_bar m.
Proof.
  unfold after_line. rewrite (effects_frame led_bar) by reflexivity.
  destruct v; reflexivity.
Qed.

Lemma parse_valid line c : In c (parse line) -> valid c = true.
Proof. unfold parse. intros H. apply List.filter_In in H. apply H. Qed.

Lemma written_snoc n b c :
  written n (b ++ [c]) =
  if (Z.to_nat (fst c) =? n)%nat then Some (snd c) else written n b.
Proof.
  unfold written. rewrite rev_app_distr. cbn [rev app List.find].
  destruct (Z.to_nat (fst c) =? n)%nat; reflexivity.
Qed.

Lemma written_None n b :
  (forall c, In c b -> Z.to_nat (fst c) <> n) -> written n b = None.
Proof.
  induction b as [|c b IH] using rev_ind; intros H; [reflexivity|].
  rewrite written_snoc.
  destruct (Nat.eqb_spec (Z.to_nat (fst c)) n) as [E|E].
  - exfalso. apply (H c); [apply in_or_app; right; left; reflexivity|exact E].
  - apply IH. intros c' Hc'. apply H. apply in_or_app. left. exact Hc'.
Qed.

Lemma length_foldl_store ps b : length (foldl store ps b) = length ps.
Proof.
  revert ps. induction b as [|c b IH]; intros ps; [reflexivity|].
  cbn [foldl]. rewrite IH. unfold store. apply length_insert.
Qed.

Lemma lookup_foldl_store ps b n :
  foldl store ps b !! n =
  match written n b with
  | Some x => (fun _ => x) <$> (ps !! n)
  | None => ps !! n
  end.
Proof.
  induction b as [|c b IH] using rev_ind; [reflexivity|].
  rewrite foldl_snoc, written_snoc. unfold store at 1.
  rewrite list_lookup_insert, length_foldl_store.
  destruct (Nat.eqb_spec (Z.to_nat (fst c)) n) as [E|E].
  - subst n. case_decide as H.
    + destruct H as [_ H]. apply lookup_lt_is_Some in H. destruct H as [y ->].
      reflexivity.
    + assert (ps !! Z.to_nat (fst c) = None) as ->
        by (apply lookup_ge_None; lia).
      apply lookup_ge_None. rewrite length_foldl_store. lia.
  - case_decide as H; [destruct H; contradiction|]. exact IH.
Qed.

Lemma length_pulse_store ss c : length (pulse_store ss c) = length ss.
Proof.
  unfold pulse_store. destruct (ss !! Z.to_nat (fst c)) as [[s|]|]; try reflexivity.
  apply length_insert.
Qed.

Lemma lookup_pulse_store ss c n :
  pulse_store ss c !! n =
  if (Z.to_nat (fst c) =? n)%nat
  then fmap (set_pulse (snd c)) <$> (ss !! n)
  else ss !! n.
Proof.
  unfold pulse_store.
  destruct (Nat.eqb_spec (Z.to_nat (fst c)) n) as [E|E].
  - subst n. destruct (ss !! Z.to_nat (fst c)) as [[s|]|] eqn:Hs.
    + rewrite list_lookup_insert_eq by (apply lookup_lt_is_Some; eauto).
      reflexivity.
    + rewrite Hs. reflexivity.
    + rewrite Hs. reflexivity.
  - destruct (ss !! Z.to_nat (fst c)) as [[s|]|]; try reflexivity.
    apply list_lookup_insert_ne. exact E.
Qed.

Lemma lookup_foldl_pulse_store ss b n :
  foldl pulse_store ss b !! n =
  match written n b with
  | Some x => fmap (set_pulse x) <$> (ss !! n)
  | None => ss !! n
  end.
Proof.
  induction b as [|c b IH] using rev_ind; [reflexivity|].
  rewrite foldl_snoc, written_snoc, lookup_pulse_store, IH.
  destruct (Z.to_nat (fst c) =? n)%nat; [|reflexivity].
  destruct (written n b); destruct (ss !! n) as [[s|]|]; reflexivity.
Qed.

Lemma not_written (ch : Z) (batch : list (Z * Z)) :
  0 <= ch ->
  (forall c, In c batch -> valid c = true /\ fst c <> ch) ->
  written (Z.to_nat ch) batch = None.
Proof.
  intros Hch H. apply written_None. intros [c1 c2] Hin.
  destruct (H _ Hin) as [Hv Hne]. apply valid_range in Hv as [Hc _].
  cbn [fst] in *. lia.
Qed.

(** X3: a line changes nothing on a channel that none of its accepted
    commands names: the stored position and the servo of that channel
    stay as they were, and no pulse call of the line goes to it. *)
Theorem other_channels_untouched (v : build) (line : list Z) (m : machine) (ch : Z)
    (Hr : ready m = true) (Hch : 0 <= ch)
    (Hnot : forall c, In c (parse (C.c_str line)) -> fst c <> ch) :
  exists m',
    handleCommands v line m = Ok tt m' /\
    currentPositions m' !! Z.to_nat ch = currentPositions m !! Z.to_nat ch /\
    servos m' !! Z.to_nat ch = servos m !! Z.to_nat ch /\
    exists new, pulses (trace m') = pulses (trace m) ++ new /\
                Forall (fun p => fst p <> ch) new.
Proof.
  exists (after_line v line m).
  split; [apply handleCommands_after_line; exact Hr|].
  assert (written (Z.to_nat ch) (parse (C.c_str line)) = None) as Hw.
  { apply not_written; [exact Hch|]. intros c Hc.
    split; [eapply parse_valid; exact Hc|apply Hnot; exact Hc]. }
  rewrite currentPositions_after_line, servos_after_line, pulses_after_line.
  rewrite lookup_foldl_store, lookup_foldl_pulse_store, Hw.
  split; [reflexivity|]. split; [reflexivity|].
  eexists. split; [reflexivity|].
  apply List.Forall_forall. intros p Hp. apply in_map_iff in Hp as (c & <- & Hc).
  cbn [fst]. apply Hnot. exact Hc.
Qed.

Lemma other_channels_untouched_by_3_50 :
  exists m',
    handleCommands Plain (C.of_string "3,50") (bench Plain "" [] 0) = Ok tt m' /\
    currentPositions m' !! 7%nat = currentPositions (bench Plain "" [] 0) !! 7%nat.
Proof.
  assert (ready (bench Plain "" [] 0) = true) as Hr by (vm_compute; reflexivity).
  assert (0 <= 7) as Hch by lia.
  assert (forall c, In c (parse (C.c_str (C.of_string "3,50"))) -> fst c <> 7) as Hnot.
  { intros c Hc. vm_compute in Hc. destruct Hc as [<-|[]]. cbn. lia. }
  destruct (other_channels_untouched Plain (C.of_string "3,50") (bench Plain "" [] 0)
              7 Hr Hch Hnot) as (m' & E & Hp & _).
  exists m'. split; [exact E|exact Hp].
Defined.

(** X4: sending the same line again changes nothing: after the second
    run every stored position, every servo and the LED bar are as the
    first run left them. *)
Theorem resend_changes_nothing (v : build) (line : list Z) (m : machine)
    (Hr : ready m = true) :
  exists m1 m2,
    handleCommands v line m = Ok tt m1 /\
    handleCommands v line m1 = Ok tt m2 /\
    currentPositions m2 = currentPositions m1 /\
    servos m2 = servos m1 /\
    led_bar m2 = led_bar m1.
Proof.
  exists (after_line v line m), (after_line v line (after_line v line m)).
  split; [apply handleCommands_after_line; exact Hr|].
  split; [apply handleCommands_after_line, ready_after_line; exact Hr|].
  split; [|split].
  - rewrite !currentPositions_after_line. apply list_eq. intros n.
    rewrite !lookup_foldl_store.
    destruct (written n (parse (C.c_str line)));
      destruct (currentPositions m !! n); reflexivity.
  - rewrite !servos_after_line. apply list_eq. intros n.
    rewrite !lookup_foldl_pulse_store.
    destruct (written n (parse (C.c_str line)));
      destruct (servos m !! n) as [[s|]|]; reflexivity.
  - rewrite !led_bar_after_line. destruct (has_leds v); [|reflexivity].
    apply list_insert_insert_eq.
Qed.

Lemma resend_changes_nothing_for_two_commands :
  exists m1 m2,
    handleCommands WithLeds (C.of_string "3,50;4,-7") (bench WithLeds "" [] 0) = Ok tt m1 /\
    handleCommands WithLeds (C.of_string "3,50;4,-7") m1 = Ok tt m2 /\
    currentPositions m2 = currentPositions m1.
Proof.
  assert (ready (bench WithLeds "" [] 0) = true) as Hr by (vm_compute; reflexivity).
  destruct (resend_changes_nothing WithLeds (C.of_string "3,50;4,-7")
              (bench WithLeds "" [] 0) Hr) as (m1 & m2 & E1 & E2 & Hp & _).
  exists m1, m2. auto.
Defined.

(** ** Two lines joined by a semicolon *)

Lemma split_not_nil d l : split d l <> [].
Proof.
  destruct l as [|c l]; cbn [split]; [discriminate|].
  destruct (c =? d); [discriminate|].
  destruct (split d l); discriminate.
Qed.

Lemma split_join d l1 l2 : split d (l1 ++ d :: l2) = split d l1 ++ split d l2.
Proof.
  induction l1 as [|c l1 IH]; cbn [app split].
  - rewrite Z.eqb_refl. reflexivity.
  - destruct (c =? d); [rewrite IH; reflexivity|].
    rewrite IH. pose proof (split_not_nil d l1) as Hne.
    destruct (split d l1) as [|seg segs]; [congruence|reflexivity].
Qed.

Lemma parse_join l1 l2 : parse (l1 ++ 59 :: l2) = parse l1 ++ parse l2.
Proof.
  unfold parse, segments.
  rewrite split_join, !List.filter_app, omap_app, List.filter_app. reflexivity.
Qed.

Lemma c_str_nul_free l : nul_free l = true -> C.c_str l = l.
Proof.
  unfold nul_free. induction l as [|c l IH]; cbn [forallb C.c_str]; [reflexivity|].
  intros H. apply andb_prop in H as [Hc Hl].
  apply negb_true_iff in Hc. rewrite Hc, (IH Hl). reflexivity.
Qed.

Lemma nul_free_join l1 l2 :
  nul_free l1 = true -> nul_free l2 = true -> nul_free (l1 ++ 59 :: l2) = true.
Proof.
  unfold nul_free. intros H1 H2. rewrite forallb_app, H1. cbn [forallb andb].
  rewrite H2. reflexivity.
Qed.

(** X5: a line made of two lines joined by a semicolon does to the
    positions, the servos, the pulse calls and the LED bar what the two
    lines do when they are handled one after the other. *)
Theorem joined_line_is_two_lines (v : build) (l1 l2 : list Z) (m : machine)
    (Hr : ready m = true)
    (H1 : nul_free l1 = true) (H2 : nul_free l2 = true) :
  exists m12 m1 m2,
    handleCommands v (l1 ++ 59 :: l2) m = Ok tt m12 /\
    handleCommands v l1 m = Ok tt m1 /\
    handleCommands v l2 m1 = Ok tt m2 /\
    currentPositions m12 = currentPositions m2 /\
    servos m12 = servos m2 /\
    pulses (trace m12) = pulses (trace m2) /\
    led_bar m12 = led_bar m2.
Proof.
  exists (after_line v (l1 ++ 59 :: l2) m), (after_line v l1 m),
         (after_line v l2 (after_line v l1 m)).
  split; [apply handleCommands_after_line; exact Hr|].
  split; [apply handleCommands_after_line; exact Hr|].
  split; [apply handleCommands_after_line, ready_after_line; exact Hr|].
  rewrite !currentPositions_after_line, !servos_after_line, !pulses_after_line,
    !led_bar_after_line.
  rewrite (c_str_nul_free _ (nul_free_join _ _ H1 H2)),
    (c_str_nul_free _ H1), (c_str_nul_free _ H2), parse_join.
  rewrite !foldl_app, map_app, app_assoc.
  repeat split; try reflexivity.
  destruct (has_leds v); [|reflexivity].
  symmetry. apply list_insert_insert_eq.
Qed.

Lemma joined_line_is_two_lines_for_two_commands :
  exists m12 m1 m2,
    handleCommands Plain (C.of_string "3,50" ++ 59 :: C.of_string "3,-50;4,1")
      (bench Plain "" [] 0) = Ok tt m12 /\
    handleCommands Plain (C.of_string "3,50") (bench Plain "" [] 0) = Ok tt m1 /\
    handleCommands Plain (C.of_string "3,-50;4,1") m1 = Ok tt m2 /\
    currentPositions m12 = currentPositions m2.
Proof.
  assert (ready (bench Plain "" [] 0) = true) as Hr by (vm_compute; reflexivity).
  assert (nul_free (C.of_string "3,50") = true) as H1 by (vm_compute; reflexivity).
  assert (nul_free (C.of_string "3,-50;4,1") = true) as H2 by (vm_compute; reflexivity).
  destruct (joined_line_is_two_lines Plain (C.of_string "3,50")
              (C.of_string "3,-50;4,1") (bench Plain "" [] 0) Hr H1 H2)
    as (m12 & m1 & m2 & E12 & E1 & E2 & Hp & _).
  exists m12, m1, m2. auto.
Defined.

(** ** readSerialLine from poll to poll *)

Lemma on_char_set_rx c x m :
  on_char c (set_rx x m) =
  match on_char c m with
  | Ok r m' => Ok r (set_rx x m')
  | Fault f => Fault f
  end.
Proof.
  unfold on_char, bind, get, index, emit, modify, ret, fail.
  change (pos (set_rx x m)) with (pos m).
  destruct ((c =? 10) || (c =? 13)).
  - destruct (0 <? pos m); [|reflexivity].
    destruct ((0 <=? pos m) && (pos m <? 256)); reflexivity.
  - destruct ((32 <=? c) && (c <=? 126) && (pos m <? 255)); [|reflexivity].
    destruct ((0 <=? pos m) && (pos m <? 256)); reflexivity.
Qed.

Lemma on_char_rx c m r m' : on_char c m = Ok r m' -> rx m' = rx m.
Proof.
  unfold on_char, bind, get, index, emit, modify, ret, fail.
  destruct ((c =? 10) || (c =? 13)).
  - destruct (0 <? pos m); [|intros H; injection H as _ <-; reflexivity].
    destruct ((0 <=? pos m) && (pos m <? 256)); [|discriminate].
    intros H. injection H as _ <-. reflexivity.
  - destruct ((32 <=? c) && (c <=? 126) && (pos m <? 255));
      [|intros H; injection H as _ <-; reflexivity].
    destruct ((0 <=? pos m) && (pos m <? 256)); [|discriminate].
    intros H. injection H as _ <-. reflexivity.
Qed.

(** Fuel beyond the number of pending bytes makes no difference. *)
Lemma read_loop_fuel f1 :
  forall f2 m,
    (length (rx m) < f1)%nat -> (length (rx m) < f2)%nat ->
    read_loop f1 m = read_loop f2 m.
Proof.
  induction f1 as [|f1 IH]; intros f2 m H1 H2; [lia|].
  destruct f2 as [|f2]; [lia|].
  cbn [read_loop]. unfold bind at 1 3, getchar_timeout_us.
  destruct (rx m) as [|c r] eqn:Hrx; [reflexivity|].
  destruct (c =? PICO_ERROR_TIMEOUT); [reflexivity|].
  unfold bind.
  destruct (on_char c (set_rx r m)) as [[line|] m'|] eqn:E; try reflexivity.
  apply on_char_rx in E. cbn [rx set_rx] in E. cbn [length] in H1, H2.
  apply IH; rewrite E; lia.
Qed.

(** X6: a byte that the loop body drops is as good as never sent.  A
    CR or LF that meets an empty buffer, a byte that is neither CR, LF
    nor printable, and any such byte or printable byte that meets a full
    buffer leave readSerialLine with the result and the machine it would
    have had without that byte. *)
Theorem dropped_byte_leaves_no_mark (c : Z) (r : list Z) (m : machine)
    (Hc : is_byte c = true)
    (Hd : (is_newline c = true /\ pos m <= 0) \/
          (is_newline c = false /\ (printable c = false \/ 255 <= pos m))) :
  readSerialLine (set_rx (c :: r) m) = readSerialLine (set_rx r m).
Proof.
  unfold readSerialLine, bind, get. cbn [rx set_rx length read_loop].
  unfold bind at 1, getchar_timeout_us. cbn [rx set_rx].
  rewrite (byte_not_timeout _ Hc).
  change (set_rx r (set_rx (c :: r) m)) with (set_rx r m).
  assert (on_char c (set_rx r m) = Ok None (set_rx r m)) as E.
  { destruct Hd as [[Hnl Hpos]|[Hnl Hor]].
    - apply on_char_empty; assumption.
    - apply on_char_discard; assumption. }
  rewrite (bind_Ok _ _ _ _ _ E). reflexivity.
Qed.

Lemma dropped_byte_leaves_no_mark_for_a_tab :
  readSerialLine (set_rx (9 :: C.of_string "3,50" ++ [10]) (boot [] [] 0)) =
  readSerialLine (set_rx (C.of_string "3,50" ++ [10]) (boot [] [] 0)).
Proof.
  assert (is_byte 9 = true) as Hc by reflexivity.
  assert ((is_newline 9 = true /\ pos (boot [] [] 0) <= 0) \/
          (is_newline 9 = false /\
           (printable 9 = false \/ 255 <= pos (boot [] [] 0)))) as Hd
    by (right; split; [reflexivity|left; reflexivity]).
  exact (dropped_byte_leaves_no_mark 9 (C.of_string "3,50" ++ [10]) (boot [] [] 0) Hc Hd).
Defined.

Lemma read_loop_resume f1 :
  forall m m1 r2 f2 f3,
    forallb is_byte (rx m) = true ->
    read_loop f1 m = Ok None m1 ->
    (length (rx m ++ r2) < f2)%nat -> (length r2 < f3)%nat ->
    read_loop f2 (set_rx (rx m ++ r2) m) = read_loop f3 (set_rx r2 m1).
Proof.
  induction f1 as [|f1 IH]; intros m m1 r2 f2 f3 Hb H Hf2 Hf3; [discriminate|].
  cbn [read_loop] in H. unfold bind at 1, getchar_timeout_us in H.
  destruct (rx m) as [|c r] eqn:Hrx.
  - change (PICO_ERROR_TIMEOUT =? PICO_ERROR_TIMEOUT) with true in H.
    injection H as <-. cbn [app] in *. apply read_loop_fuel; assumption.
  - cbn [forallb] in Hb. apply andb_prop in Hb as [Hc Hb].
    rewrite (byte_not_timeout _ Hc) in H.
    unfold bind in H. rewrite on_char_set_rx in H.
    destruct (on_char c m) as [[line|] m0|] eqn:E; try discriminate.
    cbn [app length] in Hf2. destruct f2 as [|f2]; [lia|].
    cbn [read_loop]. unfold bind at 1, getchar_timeout_us. cbn [rx set_rx app].
    rewrite (byte_not_timeout _ Hc).
    change (set_rx (r ++ r2) (set_rx (c :: r ++ r2) m)) with (set_rx (r ++ r2) m).
    unfold bind. rewrite on_char_set_rx, E.
    specialize (IH (set_rx r m0) m1 r2 f2 f3 Hb H).
    cbn [rx set_rx] in IH. apply IH; [lia|exact Hf3].
Qed.

(** X7: input that arrives in two deliveries gives what it would give
    in one.  When a call ran out of bytes in the middle of a line and
    returned NULL, the call that finds the rest pending returns the
    result, and leaves the machine, of a single call that finds all the
    bytes pending at once. *)
Theorem split_delivery_is_one_delivery (m m1 : machine) (r2 : list Z)
    (Hi : input_ok m = true)
    (Hfirst : readSerialLine m = Ok None m1) :
  readSerialLine (set_rx (rx m ++ r2) m) = readSerialLine (set_rx r2 m1).
Proof.
  unfold readSerialLine, bind, get in *. cbn [rx set_rx].
  eapply read_loop_resume; [exact Hi|exact Hfirst|lia|lia].
Qed.

Lemma split_delivery_is_one_delivery_for_3_50 :
  readSerialLine (set_rx (C.of_string "3," ++ C.of_string "50" ++ [10])
                    (boot (C.of_string "3,") [] 0)) =
  readSerialLine (set_rx (C.of_string "50" ++ [10])
                    (first_line (boot (C.of_string "3,") [] 0))).
Proof.
  assert (input_ok (boot (C.of_string "3,") [] 0) = true) as Hi by reflexivity.
  assert (readSerialLine (boot (C.of_string "3,") [] 0) =
          Ok None (first_line (boot (C.of_string "3,") [] 0))) as Hfirst
    by (vm_compute; reflexivity).
  exact (split_delivery_is_one_delivery (boot (C.of_string "3,") [] 0)
           (first_line (boot (C.of_string "3,") [] 0))
           (C.of_string "50" ++ [10]) Hi Hfirst).
Defined.

(** ** The lines a poll returns *)

Lemma c_str_printable l : forallb printable l = true -> C.c_str l = l.
Proof.
  induction l as [|c l IH]; cbn [forallb C.c_str]; [reflexivity|].
  intros H. apply andb_prop in H as [Hc Hl].
  rewrite (printable_not_nul _ Hc), (IH Hl). reflexivity.
Qed.

Lemma on_char_four_cases c m :
  line_ok m = true ->
  (is_newline c = true /\ 0 < pos m /\
   on_char c m = Ok (Some (accumulated m)) (emit_line m)) \/
  (is_newline c = true /\ pos m = 0 /\ on_char c m = Ok None m) \/
  (is_newline c = false /\ printable c && (pos m <? 255) = true /\
   on_char c m = Ok None (append_char c m)) \/
  (is_newline c = false /\ printable c && (pos m <? 255) = false /\
   on_char c m = Ok None m).
Proof.
  intros Hok. pose proof (line_ok_inv _ Hok) as (Hp & _).
  destruct (is_newline c) eqn:Hnl.
  - destruct (Z_lt_le_dec 0 (pos m)) as [Hpos|Hpos].
    + left. auto using on_char_emit.
    + right. left. split; [reflexivity|]. split; [lia|].
      apply on_char_empty; assumption.
  - destruct (printable c && (pos m <? 255)) eqn:E.
    + right. right. left. apply andb_prop in E as [Hpr Hlt].
      apply Z.ltb_lt in Hlt. repeat split.
      apply on_char_append; try assumption. lia.
    + right. right. right. repeat split.
      apply on_char_discard; [assumption|].
      apply andb_false_iff in E as [E|E]; [left; exact E|].
      right. apply Z.ltb_ge in E. exact E.
Qed.

Lemma accumulated_size m :
  line_ok m = true -> Z.of_nat (length (accumulated m)) = pos m.
Proof.
  intros Hok. rewrite (accumulated_length m Hok).
  apply line_ok_inv in Hok as (Hp & _). lia.
Qed.

Lemma read_loop_assemble fuel m :
  line_ok m = true -> input_ok m = true -> (length (rx m) < fuel)%nat ->
  exists r m',
    read_loop fuel m = Ok r m' /\ line_ok m' = true /\ input_ok m' = true /\
    reads_only m m' /\
    match r with
    | Some line =>
        pos m' = 0 /\ forallb printable line = true /\
        assemble (accumulated m) (rx m) =
        (line :: fst (assemble [] (rx m')), snd (assemble [] (rx m')))
    | None =>
        rx m' = [] /\ assemble (accumulated m) (rx m) = ([], accumulated m')
    end.
Proof.
  revert m. induction fuel as [|fuel IH]; intros m Hok Hin Hlen; [lia|].
  cbn [read_loop]. unfold bind at 1, getchar_timeout_us.
  unfold input_ok in Hin.
  destruct (rx m) as [|c r] eqn:Hrx.
  - change (PICO_ERROR_TIMEOUT =? PICO_ERROR_TIMEOUT) with true. cbn [ret].
    exists None, m. split; [reflexivity|]. split; [exact Hok|].
    split; [unfold input_ok; rewrite Hrx; reflexivity|].
    split; [apply reads_only_refl|]. split; [exact Hrx|reflexivity].
  - cbn [forallb] in Hin. apply andb_prop in Hin as [Hc Hin].
    rewrite (byte_not_timeout _ Hc).
    set (m1 := set_rx r m).
    assert (line_ok m1 = true) as Hok1 by exact Hok.
    assert (reads_only m m1) as Hro1 by apply reads_only_set_rx.
    assert (accumulated m1 = accumulated m) as Hacc by reflexivity.
    assert (pos m1 = pos m) as Hpos1 by reflexivity.
    pose proof (accumulated_size m Hok) as Hsize.
    pose proof (line_ok_inv m Hok) as (Hp & _ & Hall).
    cbn [length] in Hlen. cbn [assemble].
    destruct (on_char_four_cases c m1 Hok1)
      as [(Hnl & Hpos & E)|[(Hnl & Hpos & E)|[(Hnl & Hcond & E)|(Hnl & Hcond & E)]]];
      rewrite (bind_Ok _ _ _ _ _ E), Hnl.
    + exists (Some (accumulated m1)), (emit_line m1).
      split; [reflexivity|]. split; [apply line_ok_emit; exact Hok1|].
      split; [exact Hin|].
      split; [eapply reads_only_trans; [exact Hro1|apply reads_only_emit]|].
      split; [reflexivity|]. rewrite Hacc. split; [exact Hall|].
      change (rx (emit_line m1)) with r.
      destruct (accumulated m) as [|a acc] eqn:Ea.
      * cbn [length] in Hsize. lia.
      * destruct (assemble [] r); reflexivity.
    + destruct (IH m1 Hok1 Hin ltac:(cbn; lia))
        as (r' & m' & E' & Hok' & Hin' & Hro' & Hr').
      exists r', m'. split; [exact E'|]. split; [exact Hok'|].
      split; [exact Hin'|].
      split; [eapply reads_only_trans; [exact Hro1|exact Hro']|].
      assert (accumulated m = []) as Ea.
      { unfold accumulated. rewrite <- Hpos1, Hpos. reflexivity. }
      rewrite Ea. rewrite Hacc, Ea in Hr'. exact Hr'.
    + rewrite Hsize, <- Hpos1, Hcond.
      apply andb_prop in Hcond as [Hpr Hlt]. apply Z.ltb_lt in Hlt.
      destruct (IH (append_char c m1)) as (r' & m' & E' & Hok' & Hin' & Hro' & Hr').
      * apply line_ok_append; assumption.
      * exact Hin.
      * cbn. lia.
      * exists r', m'. split; [exact E'|]. split; [exact Hok'|].
        split; [exact Hin'|].
        split; [eapply reads_only_trans; [exact Hro1|];
                eapply reads_only_trans; [apply reads_only_append|exact Hro']|].
        rewrite accumulated_append in Hr' by assumption.
        rewrite Hacc in Hr'. exact Hr'.
    + rewrite Hsize, <- Hpos1, Hcond.
      destruct (IH m1 Hok1 Hin ltac:(cbn; lia))
        as (r' & m' & E' & Hok' & Hin' & Hro' & Hr').
      exists r', m'. split; [exact E'|]. split; [exact Hok'|].
      split; [exact Hin'|].
      split; [eapply reads_only_trans; [exact Hro1|exact Hro']|].
      rewrite Hacc in Hr'. exact Hr'.
Qed.

(** ** Draining in terms of the pending lines *)

Lemma handles_app t1 t2 : handles (t1 ++ t2) = handles t1 ++ handles t2.
Proof. apply omap_app. Qed.

Lemma handles_token_events toks : handles (concat (map token_events toks)) = [].
Proof.
  induction toks as [|t toks IH]; [reflexivity|].
  cbn [map concat]. rewrite handles_app, IH, app_nil_r. unfold token_events.
  destruct (fields t) as [c|]; [|reflexivity].
  destruct (valid c); reflexivity.
Qed.

Lemma line_index_silent new :
  forallb is_line_index new = true -> handles new = [] /\ pulses new = [].
Proof.
  induction new as [|e new IH]; intros H; [split; reflexivity|].
  cbn [forallb] in H. apply andb_prop in H as [He H]. destruct (IH H) as [IH1 IH2].
  destruct e as [[] ?| | | |]; try discriminate. split; assumption.
Qed.

Lemma reads_only_silent m m' :
  reads_only m m' ->
  handles (trace m') = handles (trace m) /\ pulses (trace m') = pulses (trace m).
Proof.
  intros [_ _ _ _ _ _ (new & -> & Hq)].
  destruct (line_index_silent new Hq) as [H1 H2].
  rewrite handles_app, pulses_app, H1, H2, !app_nil_r. split; reflexivity.
Qed.

Lemma handles_after_line v line m :
  handles (trace (after_line v line m)) = handles (trace m) ++ [C.c_str line].
Proof.
  unfold after_line.
  rewrite trace_effects, trace_enter, !handles_app, handles_token_events.
  rewrite app_nil_r. reflexivity.
Qed.

Lemma serial_after_line v line m :
  buffer (after_line v line m) = buffer m /\ pos (after_line v line m) = pos m /\
  rx (after_line v line m) = rx m.
Proof.
  unfold after_line.
  rewrite (effects_frame buffer), (effects_frame pos), (effects_frame rx)
    by reflexivity.
  destruct v; repeat split.
Qed.

Lemma lines_of_fields m m' :
  buffer m' = buffer m -> pos m' = pos m -> rx m' = rx m -> lines_of m' = lines_of m.
Proof. unfold lines_of, accumulated. intros -> -> ->. reflexivity. Qed.

Lemma commands_app l1 l2 : commands (l1 ++ l2) = commands l1 ++ commands l2.
Proof. unfold commands. rewrite map_app, concat_app. reflexivity. Qed.

Lemma batch_pulses_app b1 b2 : batch_pulses (b1 ++ b2) = batch_pulses b1 ++ batch_pulses b2.
Proof. unfold batch_pulses. apply map_app. Qed.

(** Steps that touch neither the channels nor the serial side. *)
Lemma drained_idle m m' :
  ready m = true -> line_ok m = true -> input_ok m = true ->
  currentPositions m' = currentPositions m -> servos m' = servos m ->
  buffer m' = buffer m -> pos m' = pos m -> rx m' = rx m ->
  handles (trace m') = handles (trace m) -> pulses (trace m') = pulses (trace m) ->
  drained 0 m m'.
Proof.
  intros Hr Hl Hi F1 F2 F3 F4 F5 F6 F7. constructor.
  - rewrite (ready_fields m m'); assumption.
  - rewrite (line_ok_fields m m'); assumption.
  - rewrite (input_ok_fields m m'); assumption.
  - rewrite F6, take_0, app_nil_r. reflexivity.
  - rewrite F1, take_0. reflexivity.
  - rewrite F2, take_0. reflexivity.
  - rewrite F7, take_0. cbn. rewrite app_nil_r. reflexivity.
  - rewrite drop_0. apply lines_of_fields; assumption.
Qed.

Lemma drained_trans j k m1 m2 m3 :
  drained j m1 m2 -> drained k m2 m3 -> drained (j + k) m1 m3.
Proof.
  intros [A1 A2 A3 A4 A5 A6 A7 A8] [B1 B2 B3 B4 B5 B6 B7 B8].
  assert (take (j + k) (lines_of m1) =
          take j (lines_of m1) ++ take k (lines_of m2)) as Htake
    by (rewrite A8; symmetry; apply take_take_drop).
  constructor; try assumption.
  - rewrite B4, A4, Htake, app_assoc. reflexivity.
  - rewrite B5, A5, Htake, commands_app, foldl_app. reflexivity.
  - rewrite B6, A6, Htake, commands_app, foldl_app. reflexivity.
  - rewrite B7, A7, Htake, commands_app, batch_pulses_app, app_assoc. reflexivity.
  - rewrite B8, A8, drop_drop. reflexivity.
Qed.

(** A poll that finds no complete line: nothing is pending, whatever
    the number of lines asked for. *)
Lemma drained_none k m m' :
  ready m = true -> line_ok m' = true -> input_ok m' = true ->
  reads_only m m' -> rx m' = [] ->
  assemble (accumulated m) (rx m) = ([], accumulated m') ->
  drained k m m'.
Proof.
  intros Hr Hl Hi Hro Hrx Ha.
  destruct (reads_only_silent _ _ Hro) as [Hh Hp].
  assert (lines_of m = []) as Hlines by (unfold lines_of; rewrite Ha; reflexivity).
  constructor; try assumption.
  - rewrite (ready_fields m m'); [exact Hr|apply Hro|apply Hro].
  - rewrite Hh, Hlines, take_nil, app_nil_r. reflexivity.
  - rewrite Hlines, take_nil. apply Hro.
  - rewrite Hlines, take_nil. apply Hro.
  - rewrite Hp, Hlines, take_nil. cbn. rewrite app_nil_r. reflexivity.
  - rewrite Hlines, drop_nil. unfold lines_of. rewrite Hrx. reflexivity.
Qed.

(** A poll that returns a line, and the handling of that line. *)
Lemma drained_one v line m m1 :
  ready m = true -> line_ok m1 = true -> input_ok m1 = true ->
  reads_only m m1 -> pos m1 = 0 -> forallb printable line = true ->
  assemble (accumulated m) (rx m) =
  (line :: fst (assemble [] (rx m1)), snd (assemble [] (rx m1))) ->
  drained 1 m (after_line v line m1).
Proof.
  intros Hr Hl Hi Hro Hpos Hpr Ha.
  destruct (reads_only_silent _ _ Hro) as [Hh Hp].
  destruct (serial_after_line v line m1) as (F1 & F2 & F3).
  assert (ready m1 = true) as Hr1
    by (rewrite (ready_fields m m1); [exact Hr|apply Hro|apply Hro]).
  assert (lines_of m = line :: fst (assemble [] (rx m1))) as Hlines
    by (unfold lines_of; rewrite Ha; reflexivity).
  assert (commands [line] = parse line) as Hcmd
    by (unfold commands; cbn [map concat]; apply app_nil_r).
  pose proof (c_str_printable line Hpr) as Hc.
  assert (take 1 (lines_of m) = [line]) as Htake by (rewrite Hlines; reflexivity).
  constructor.
  - apply ready_after_line. exact Hr1.
  - rewrite (line_ok_fields m1 _); assumption.
  - rewrite (input_ok_fields m1 _); assumption.
  - rewrite handles_after_line, Hh, Htake, Hc. reflexivity.
  - rewrite currentPositions_after_line, Htake, Hcmd, Hc. f_equal. apply Hro.
  - rewrite servos_after_line, Htake, Hcmd, Hc. f_equal. apply Hro.
  - rewrite pulses_after_line, Hp, Htake, Hcmd, Hc. reflexivity.
  - rewrite Hlines. cbn [drop]. unfold lines_of, accumulated.
    rewrite F1, F2, F3, Hpos. reflexivity.
Qed.

Lemma readSerialLine_assemble m :
  line_ok m = true -> input_ok m = true ->
  exists r m',
    readSerialLine m = Ok r m' /\ line_ok m' = true /\ input_ok m' = true /\
    reads_only m m' /\
    match r with
    | Some line =>
        pos m' = 0 /\ forallb printable line = true /\
        assemble (accumulated m) (rx m) =
        (line :: fst (assemble [] (rx m')), snd (assemble [] (rx m')))
    | None =>
        rx m' = [] /\ assemble (accumulated m) (rx m) = ([], accumulated m')
    end.
Proof.
  intros Hl Hi. unfold readSerialLine, bind, get.
  apply read_loop_assemble; try assumption. lia.
Qed.

Lemma drain_drained v rounds :
  forall had l m,
    ready m = true -> line_ok m = true -> input_ok m = true ->
    exists had' l' m',
      drain v rounds had l m = Ok (had', l') m' /\ drained rounds m m'.
Proof.
  induction rounds as [|rounds IH]; intros had l m Hr Hl Hi.
  - exists had, l, m. split; [reflexivity|].
    apply drained_idle; auto.
  - cbn [drain].
    destruct (readSerialLine_assemble m Hl Hi)
      as (r & m1 & E1 & Hl1 & Hi1 & Hro & Hres).
    rewrite (bind_Ok _ _ _ _ _ E1). destruct r as [line|].
    + destruct Hres as (Hpos & Hpr & Ha).
      assert (ready m1 = true) as Hr1
        by (rewrite (ready_fields m m1); [exact Hr|apply Hro|apply Hro]).
      rewrite (bind_Ok _ _ _ _ _ (handleCommands_after_line v line m1 Hr1)).
      pose proof (drained_one v line m m1 Hr Hl1 Hi1 Hro Hpos Hpr Ha) as D1.
      assert (exists l2, (if has_leds v
                          then let* t := make_timeout_time_ms 150 in
                               drain v rounds true (mkLocals t true)
                          else drain v rounds true l) (after_line v line m1) =
                         drain v rounds true l2 (after_line v line m1)) as [l2 ->].
      { destruct v; cbn; eexists; reflexivity. }
      destruct (IH true l2 (after_line v line m1)
                  (dr_ready _ _ _ D1) (dr_line_ok _ _ _ D1) (dr_input_ok _ _ _ D1))
        as (had' & l' & m' & E & D).
      exists had', l', m'. split; [exact E|].
      exact (drained_trans 1 rounds _ _ _ D1 D).
    + destruct Hres as (Hrx & Ha).
      exists had, l, m1. split; [reflexivity|].
      apply drained_none; assumption.
Qed.

(** ** One round and many rounds in terms of the pending lines *)

Lemma after_poll_idle m :
  ready m = true -> line_ok m = true -> input_ok m = true ->
  drained 0 m (after_poll m).
Proof.
  intros Hr Hl Hi.
  destruct (after_poll_frame m) as (F1 & F2 & F3 & F4 & F5 & _ & _).
  apply drained_idle; try assumption.
  - unfold after_poll. destruct (user_sw m) as [|[] r]; try reflexivity.
    cbn [animate trace log set_user_sw]. rewrite !handles_app.
    change (handles [EvPrintf MsgButton]) with (@nil (list Z)).
    change (handles animation_events) with (@nil (list Z)).
    rewrite !app_nil_r. reflexivity.
  - unfold after_poll. destruct (user_sw m) as [|[] r]; try reflexivity.
    cbn [animate trace log set_user_sw]. rewrite !pulses_app.
    change (pulses [EvPrintf MsgButton]) with (@nil (Z * F32.float)).
    change (pulses animation_events) with (@nil (Z * F32.float)).
    rewrite !app_nil_r. reflexivity.
Qed.

Lemma main_iteration_drained v l m :
  ready m = true -> line_ok m = true -> input_ok m = true ->
  exists l' m', main_iteration v l m = Ok l' m' /\ drained 100 m m'.
Proof.
  intros Hr Hl Hi. rewrite main_iteration_split.
  set (m0 := if has_leds v then after_poll m else m).
  assert (drained 0 m m0) as D0.
  { unfold m0. destruct (has_leds v); [apply after_poll_idle; assumption|].
    apply drained_idle; auto. }
  unfold after_button.
  assert (exists l1 m1,
             (if has_leds v then tick l else ret l) m0 = Ok l1 m1 /\
             drained 0 m0 m1) as (l1 & m1 & E1 & D1).
  { destruct (has_leds v).
    - destruct (tick_frame l m0) as (l1 & m1 & E & F1 & F2 & F3 & F4 & F5 & F6).
      exists l1, m1. split; [exact E|].
      apply drained_idle; try assumption; try (rewrite F6; reflexivity);
        apply D0.
    - exists l, m0. split; [reflexivity|].
      apply drained_idle; auto; apply D0. }
  rewrite (bind_Ok _ _ _ _ _ E1).
  destruct (drain_drained v 100 false l1 m1
              (dr_ready _ _ _ D1) (dr_line_ok _ _ _ D1) (dr_input_ok _ _ _ D1))
    as (had & l2 & m2 & E2 & D2).
  rewrite (bind_Ok _ _ _ _ _ E2). cbn [fst snd].
  pose proof (drained_trans 0 100 _ _ _ (drained_trans 0 0 _ _ _ D0 D1) D2) as D.
  destruct had; cbn [negb when].
  - exists l2, m2. split; [reflexivity|exact D].
  - rewrite (bind_Ok _ _ _ _ _ (sleep_ms_effect 1 m2)).
    eexists _, _. split; [reflexivity|].
    refine (drained_trans 100 0 _ _ _ D _).
    apply drained_idle; try apply D2; try reflexivity.
    + cbn [trace set_now log]. rewrite handles_app. apply app_nil_r.
    + cbn [trace set_now log]. rewrite pulses_app. apply app_nil_r.
Qed.

Lemma main_loop_drained v n :
  forall l m,
    ready m = true -> line_ok m = true -> input_ok m = true ->
    exists l' m', main_loop v n l m = Ok l' m' /\ drained (100 * n) m m'.
Proof.
  induction n as [|n IH]; intros l m Hr Hl Hi.
  - exists l, m. split; [reflexivity|].
    rewrite Nat.mul_0_r. apply drained_idle; auto.
  - cbn [main_loop].
    destruct (main_iteration_drained v l m Hr Hl Hi) as (l1 & m1 & E1 & D1).
    rewrite (bind_Ok _ _ _ _ _ E1).
    destruct (IH l1 m1 (dr_ready _ _ _ D1) (dr_line_ok _ _ _ D1)
                (dr_input_ok _ _ _ D1)) as (l' & m' & E & D).
    exists l', m'. split; [exact E|].
    replace (100 * S n)%nat with (100 + 100 * n)%nat by lia.
    exact (drained_trans _ _ _ _ _ D1 D).
Qed.

(** X8: one round of the main loop hands to handleCommands the first
    hundred complete lines that the buffer and the pending bytes hold,
    in their order and nothing else; positions, servos and pulse calls
    are those of the commands of these lines, and the lines beyond the
    hundredth stay pending. *)
Theorem round_handles_first_hundred_lines (v : build) (l : locals) (m : machine)
    (Hr : ready m = true) (Hl : line_ok m = true) (Hi : input_ok m = true) :
  exists l' m',
    main_iteration v l m = Ok l' m' /\
    handles (trace m') = handles (trace m) ++ take 100 (lines_of m) /\
    currentPositions m' =
      foldl store (currentPositions m) (commands (take 100 (lines_of m))) /\
    servos m' = foldl pulse_store (servos m) (commands (take 100 (lines_of m))) /\
    pulses (trace m') =
      pulses (trace m) ++ batch_pulses (commands (take 100 (lines_of m))) /\
    lines_of m' = drop 100 (lines_of m).
Proof.
  destruct (main_iteration_drained v l m Hr Hl Hi) as (l' & m' & E & D).
  exists l', m'. split; [exact E|].
  split; [apply D|]. split; [apply D|]. split; [apply D|]. split; apply D.
Qed.

Lemma round_handles_first_hundred_lines_on_two_lines :
  exists l' m',
    main_iteration Plain (mkLocals 0 false)
      (after_setup Plain (C.of_string "3,50" ++ [13; 10] ++ C.of_string "4,1" ++ [10])
         [] 0) = Ok l' m' /\
    handles (trace m') = [C.of_string "3,50"; C.of_string "4,1"].
Proof.
  destruct (round_handles_first_hundred_lines Plain (mkLocals 0 false)
              (after_setup Plain
                 (C.of_string "3,50" ++ [13; 10] ++ C.of_string "4,1" ++ [10]) [] 0)
              ltac:(vm_compute; reflexivity) ltac:(vm_compute; reflexivity)
              ltac:(vm_compute; reflexivity)) as (l' & m' & E & Hh & _).
  exists l', m'. split; [exact E|]. rewrite Hh. vm_compute. reflexivity.
Defined.

(** ** Positions and pulses stay in step *)

Lemma same_float_refl x : same_float x x = true.
Proof.
  destruct x as [s|s| |s m e]; cbn [same_float]; try reflexivity.
  - apply eqb_reflx.
  - apply eqb_reflx.
  - rewrite eqb_reflx, Pos.eqb_refl, Z.eqb_refl. reflexivity.
Qed.

Lemma same_float_eq x y : same_float x y = true -> x = y.
Proof.
  destruct x as [s|s| |s m e], y as [s'|s'| |s' m' e']; cbn [same_float];
    try discriminate; intros H.
  - apply eqb_prop in H. congruence.
  - apply eqb_prop in H. congruence.
  - reflexivity.
  - apply andb_prop in H as [H He]. apply andb_prop in H as [Hs Hm].
    apply eqb_prop in Hs. apply Pos.eqb_eq in Hm. apply Z.eqb_eq in He.
    congruence.
Qed.

Lemma forallb_combine_lookup {A B} (f : A * B -> bool) (l1 : list A) (l2 : list B) :
  forallb f (combine l1 l2) = true <->
  forall n a b, l1 !! n = Some a -> l2 !! n = Some b -> f (a, b) = true.
Proof.
  revert l2. induction l1 as [|x l1 IH]; intros l2.
  - split; [intros _ n a b H; destruct n; discriminate|reflexivity].
  - destruct l2 as [|y l2].
    + split; [intros _ n a b _ H; destruct n; discriminate|reflexivity].
    + cbn [combine forallb]. rewrite andb_true_iff, IH. split.
      * intros [Hxy H] [|n] a b Ha Hb.
        -- cbn in Ha, Hb. congruence.
        -- exact (H n a b Ha Hb).
      * intros H. split; [exact (H 0%nat x y eq_refl eq_refl)|].
        intros n a b Ha Hb. exact (H (S n) a b Ha Hb).
Qed.

Lemma written_Some n b x : written n b = Some x -> exists c, In c b /\ snd c = x.
Proof.
  unfold written.
  destruct (List.find (fun c => (Z.to_nat (fst c) =? n)%nat) (rev b)) as [c|] eqn:E;
    [|discriminate].
  intros H. injection H as <-. apply find_some in E as [Hin _].
  exists c. split; [apply in_rev; exact Hin|reflexivity].
Qed.

Lemma sync_batch ps ss b :
  forallb (fun po => channel_ok (fst po) (snd po)) (combine ps ss) = true ->
  (forall c, In c b -> valid c = true) ->
  forallb (fun po => channel_ok (fst po) (snd po))
          (combine (foldl store ps b) (foldl pulse_store ss b)) = true.
Proof.
  intros Hold Hvalid. apply forallb_combine_lookup. intros n p o Hp Ho.
  rewrite lookup_foldl_store in Hp. rewrite lookup_foldl_pulse_store in Ho.
  pose proof (proj1 (forallb_combine_lookup _ _ _) Hold n) as Hn.
  destruct (written n b) as [x|] eqn:W; [|exact (Hn p o Hp Ho)].
  destruct (ps !! n) as [p0|]; [|discriminate].
  destruct (ss !! n) as [o0|]; [|discriminate].
  injection Hp as <-. injection Ho as <-.
  specialize (Hn p0 o0 eq_refl eq_refl). cbn [fst snd] in *.
  apply written_Some in W as ([c1 c2] & Hin & Hx). cbn [snd] in Hx. subst c2.
  apply Hvalid, valid_range in Hin as [_ Hrange].
  unfold channel_ok in *.
  destruct o0 as [s|]; [|rewrite andb_false_r in Hn; discriminate].
  cbn [fmap option_fmap option_map set_pulse apply_op servo_pulse].
  rewrite same_float_refl, andb_true_r.
  apply andb_true_iff. split; [apply Z.leb_le|apply Z.leb_le]; lia.
Qed.



Lemma in_sync_reading m ch x :
  ready m = true -> in_sync m = true ->
  currentPositions m !! ch = Some x ->
  MIN_ANGLE <= x <= MAX_ANGLE /\
  exists s, servos m !! ch = Some (Some s) /\
            (servo_pulse s = Some (pulse_us x) \/ (servo_pulse s = None /\ x = 0)).
Proof.
  intros Hr Hs Hx. apply ready_lengths in Hr as (H1 & H2 & _).
  assert (is_Some (servos m !! ch)) as [o Ho].
  { apply lookup_lt_is_Some. rewrite H2, <- H1.
    apply lookup_lt_is_Some. eauto. }
  pose proof (proj1 (forallb_combine_lookup _ _ _) Hs ch x o Hx Ho) as H.
  cbn [fst snd] in H. unfold channel_ok in H.
  apply andb_prop in H as [H Hservo]. apply andb_prop in H as [Hlo Hhi].
  apply Z.leb_le in Hlo, Hhi. split; [lia|].
  destruct o as [s|]; [|discriminate]. exists s. split; [exact Ho|].
  destruct (servo_pulse s) as [us|].
  - left. f_equal. apply same_float_eq. exact Hservo.
  - right. apply Z.eqb_eq in Hservo. auto.
Qed.

(** X9: handleCommands keeps positions and pulses in step.  When every
    stored position is in [-140, 140] and is the one whose pulse its
    servo got last (or 0 for a servo that got none), the same holds
    after any line. *)
Theorem positions_and_pulses_stay_in_step (v : build) (line : list Z) (m : machine)
    (Hr : ready m = true) (Hs : in_sync m = true) :
  exists m',
    handleCommands v line m = Ok tt m' /\
    in_sync m' = true /\
    forall ch x,
      currentPositions m' !! ch = Some x ->
      MIN_ANGLE <= x <= MAX_ANGLE /\
      exists s, servos m' !! ch = Some (Some s) /\
                (servo_pulse s = Some (pulse_us x) \/
                 (servo_pulse s = None /\ x = 0)).
Proof.
  exists (after_line v line m).
  split; [apply handleCommands_after_line; exact Hr|].
  assert (in_sync (after_line v line m) = true) as Hs'.
  { unfold in_sync. rewrite currentPositions_after_line, servos_after_line.
    apply sync_batch; [exact Hs|]. intros c. apply parse_valid. }
  split; [exact Hs'|]. intros ch x.
  apply in_sync_reading; [apply ready_after_line; exact Hr|exact Hs'].
Qed.

Lemma positions_and_pulses_stay_in_step_after_a_line :
  exists m',
    handleCommands WithLeds (C.of_string "3,50;17,-140;18,0") (bench WithLeds "" [] 0)
      = Ok tt m' /\
    in_sync m' = true.
Proof.
  destruct (positions_and_pulses_stay_in_step WithLeds
              (C.of_string "3,50;17,-140;18,0") (bench WithLeds "" [] 0)
              ltac:(vm_compute; reflexivity) ltac:(vm_compute; reflexivity))
    as (m' & E & Hs & _).
  exists m'. split; [exact E|exact Hs].
Defined.

(** ** The whole program, from reset *)

Lemma main_start_Ok v input button t :
  main_start v (boot input button t) =
  Ok (start_locals v input button t) (started v input button t).
Proof.
  unfold start_locals, started.
  destruct (main_start v (boot input button t)) as [l m|f] eqn:E; [reflexivity|].
  exfalso. destruct v; vm_compute in E; discriminate E.
Qed.

Lemma started_fields v input button t :
  rx (started v input button t) = input /\
  accumulated (started v input button t) = [] /\
  currentPositions (started v input button t) = replicate (Z.to_nat NUM_SERVOS) 0 /\
  handles (trace (started v input button t)) = [] /\
  pulses (trace (started v input button t)) = [] /\
  ready (started v input button t) = true /\
  line_ok (started v input button t) = true /\
  in_sync (started v input button t) = true.
Proof. destruct v; vm_compute; repeat split; reflexivity. Qed.

Lemma started_lines v input button t :
  lines_of (started v input button t) = fst (assemble [] input).
Proof.
  destruct (started_fields v input button t) as (H1 & H2 & _).
  unfold lines_of. rewrite H1, H2. reflexivity.
Qed.

Lemma run_started v input button t n :
  run v n (boot input button t) =
  main_loop v n (start_locals v input button t) (started v input button t).
Proof.
  unfold run. rewrite (bind_Ok _ _ _ _ _ (main_start_Ok v input button t)).
  reflexivity.
Qed.

Lemma started_input_ok v input button t :
  forallb is_byte input = true -> input_ok (started v input button t) = true.
Proof.
  intros Hi. destruct (started_fields v input button t) as (H1 & _).
  unfold input_ok. rewrite H1. exact Hi.
Qed.

Lemma started_ready v input button t : ready (started v input button t) = true.
Proof. apply started_fields. Qed.

Lemma started_line_ok v input button t : line_ok (started v input button t) = true.
Proof. apply started_fields. Qed.

Lemma run_drained v input button t n :
  forallb is_byte input = true ->
  exists l m,
    run v n (boot input button t) = Ok l m /\
    drained (100 * n) (started v input button t) m.
Proof.
  intros Hi. rewrite run_started.
  apply main_loop_drained;
    [apply started_ready|apply started_line_ok|apply started_input_ok; exact Hi].
Qed.



(** ** The shape of the lines *)

Lemma assemble_shape input :
  forall acc,
    forallb printable acc = true -> (length acc <= 255)%nat ->
    Forall (fun line => line <> [] /\ (length line <= 255)%nat /\
                        forallb printable line = true)
           (fst (assemble acc input)).
Proof.
  induction input as [|c r IH]; intros acc Hp Hlen; cbn [assemble].
  - constructor.
  - destruct (is_newline c).
    + destruct acc as [|a acc]; [apply IH; [reflexivity|cbn; lia]|].
      specialize (IH [] eq_refl ltac:(cbn; lia)).
      destruct (assemble [] r) as [lines left]. cbn [fst] in *.
      constructor; [|exact IH]. split; [discriminate|]. split; assumption.
    + destruct (printable c) eqn:Hc; cbn [andb]; [|apply IH; assumption].
      destruct (Z.of_nat (length acc) <? 255) eqn:Hl; [|apply IH; assumption].
      apply Z.ltb_lt in Hl. apply IH.
      * rewrite forallb_app, Hp. cbn [forallb]. rewrite Hc. reflexivity.
      * rewrite length_app. cbn [length]. lia.
Qed.

(** X11: whatever bytes arrive, handleCommands is only ever called with
    a line that is not empty, has at most 255 characters, all of them
    printable (32 to 126), so the line holds no NUL, CR or LF. *)
Theorem handler_gets_clean_lines
    (v : build) (input : list Z) (button : list bool) (t : Z) (n : nat)
    (Hi : forallb is_byte input = true) :
  exists l m,
    run v n (boot input button t) = Ok l m /\
    forall line, In line (handles (trace m)) ->
                 line <> [] /\ (length line <= 255)%nat /\
                 forallb printable line = true.
Proof.
  destruct (run_drained v input button t n Hi) as (l & m & E & D).
  destruct (started_fields v input button t) as (_ & _ & _ & Hh & _).
  exists l, m. split; [exact E|]. intros line Hin.
  rewrite (dr_handles _ _ _ D), Hh, (started_lines v input button t) in Hin.
  cbn [app] in Hin.
  pose proof (assemble_shape input [] eq_refl ltac:(cbn; lia)) as Hall.
  apply (Forall_take _ (100 * n)%nat) in Hall.
  rewrite Forall_forall in Hall. apply Hall. apply list_elem_of_In. exact Hin.
Qed.

Lemma handler_gets_clean_lines_on_noise :
  exists l m,
    run WithLeds 1 (boot ([10; 13; 9; 200] ++ C.of_string "3,50" ++ [0; 10; 10]) [] 0)
      = Ok l m /\
    forall line, In line (handles (trace m)) ->
                 line <> [] /\ (length line <= 255)%nat /\
                 forallb printable line = true.
Proof.
  apply (handler_gets_clean_lines WithLeds
           ([10; 13; 9; 200] ++ C.of_string "3,50" ++ [0; 10; 10]) [] 0 1).
  vm_compute. reflexivity.
Defined.

(** ** The LED bar between rounds *)

Lemma colour_eqb_eq a b : colour_eqb a b = true -> a = b.
Proof.
  destruct a as [r1 g1 b1|h1 s1 v1], b as [r2 g2 b2|h2 s2 v2]; cbn [colour_eqb];
    try discriminate; intros H.
  - apply andb_prop in H as [H H3]. apply andb_prop in H as [H1 H2].
    apply Z.eqb_eq in H1, H2, H3. congruence.
  - apply andb_prop in H as [H H3]. apply andb_prop in H as [H1 H2].
    apply same_float_eq in H1, H2, H3. congruence.
Qed.

Lemma bar_eqb_eq x : forall y, bar_eqb x y = true -> x = y.
Proof.
  induction x as [|a x IH]; intros [|b y]; cbn [bar_eqb]; try discriminate.
  - reflexivity.
  - intros H. apply andb_prop in H as [H1 H2].
    apply colour_eqb_eq in H1. apply IH in H2. congruence.
Qed.

Lemma led_ok_inv l m :
  led_ok l m = true ->
  led_bar m = default_leds \/
  (led_bar m = flashing_leds /\ command_led_active l = true).
Proof.
  unfold led_ok. intros H. apply orb_prop in H as [H|H].
  - left. apply bar_eqb_eq. exact H.
  - right. apply andb_prop in H as [H1 H2]. split; [apply bar_eqb_eq|]; assumption.
Qed.

Lemma led_ok_default l m : led_bar m = default_leds -> led_ok l m = true.
Proof. unfold led_ok. intros ->. reflexivity. Qed.

Lemma led_ok_fields l m m' : led_bar m' = led_bar m -> led_ok l m' = led_ok l m.
Proof. unfold led_ok. intros ->. reflexivity. Qed.

Lemma tick_led l m l' m' :
  led_ok l m = true -> tick l m = Ok l' m' -> led_ok l' m' = true.
Proof.
  intros Hok. unfold tick. destruct (command_led_active l) eqn:Ha.
  - unfold bind, get_absolute_time, get.
    destruct (0 <? absolute_time_diff_us (command_led_off_time l) (now m)).
    + intros H. injection H as <- <-. apply led_ok_default.
      change (led_bar (set_led_bar (<[COMMAND_LED := RGB 0 0 0]> (led_bar m)) m))
        with (<[COMMAND_LED := RGB 0 0 0]> (led_bar m)).
      apply led_ok_inv in Hok as [->|[-> _]]; reflexivity.
    + intros H. injection H as <- <-. exact Hok.
  - intros H. injection H as <- <-. exact Hok.
Qed.

Lemma after_poll_led l m : led_ok l m = true -> led_ok l (after_poll m) = true.
Proof.
  intros Hok. unfold after_poll. destruct (user_sw m) as [|[] r].
  - exact Hok.
  - apply led_ok_default. reflexivity.
  - rewrite (led_ok_fields l m _); [exact Hok|reflexivity].
Qed.

Lemma make_timeout_time_ms_effect ms m :
  make_timeout_time_ms ms m = Ok (Z.min (now m + ms * 1000) INT64_MAX) m.
Proof. reflexivity. Qed.

Lemma drain_led rounds :
  forall had l m had' l' m',
    ready m = true -> line_ok m = true -> input_ok m = true ->
    led_ok l m = true ->
    drain WithLeds rounds had l m = Ok (had', l') m' ->
    led_ok l' m' = true.
Proof.
  induction rounds as [|rounds IH]; intros had l m had' l' m' Hr Hl Hi Hok.
  - intros H. injection H as _ <- <-. exact Hok.
  - cbn [drain].
    destruct (readSerialLine_assemble m Hl Hi)
      as (r & m1 & E1 & Hl1 & Hi1 & Hro & Hres).
    rewrite (bind_Ok _ _ _ _ _ E1). destruct r as [line|].
    + destruct Hres as (Hpos & Hpr & Ha).
      assert (ready m1 = true) as Hr1
        by (rewrite (ready_fields m m1); [exact Hr|apply Hro|apply Hro]).
      pose proof (drained_one WithLeds line m m1 Hr Hl1 Hi1 Hro Hpos Hpr Ha) as D.
      rewrite (bind_Ok _ _ _ _ _ (handleCommands_after_line WithLeds line m1 Hr1)).
      cbn [has_leds].
      rewrite (bind_Ok _ _ _ _ _ (make_timeout_time_ms_effect 150 _)).
      apply IH; try apply D.
      unfold led_ok. cbn [command_led_active]. rewrite led_bar_after_line.
      cbn [has_leds]. rewrite (ro_led_bar _ _ Hro).
      apply led_ok_inv in Hok as [->|[-> _]]; reflexivity.
    + intros H. injection H as _ <- <-.
      rewrite (led_ok_fields l m m1); [exact Hok|apply Hro].
Qed.

Lemma main_iteration_led l m l' m' :
  ready m = true -> line_ok m = true -> input_ok m = true ->
  led_ok l m = true ->
  main_iteration WithLeds l m = Ok l' m' -> led_ok l' m' = true.
Proof.
  intros Hr Hl Hi Hok. rewrite main_iteration_split. cbn [has_leds].
  pose proof (after_poll_idle m Hr Hl Hi) as D0.
  pose proof (after_poll_led l m Hok) as Hok0.
  set (m0 := after_poll m) in *. unfold after_button. cbn [has_leds].
  destruct (tick_frame l m0) as (l1 & m1 & E1 & F1 & F2 & F3 & F4 & F5 & F6).
  rewrite (bind_Ok _ _ _ _ _ E1).
  pose proof (tick_led _ _ _ _ Hok0 E1) as Hok1.
  assert (ready m1 = true) as Hr1
    by (rewrite (ready_fields m0 m1); [apply D0|assumption|assumption]).
  assert (line_ok m1 = true) as Hl1
    by (rewrite (line_ok_fields m0 m1); [apply D0|assumption|assumption]).
  assert (input_ok m1 = true) as Hi1
    by (rewrite (input_ok_fields m0 m1); [apply D0|assumption]).
  destruct (drain_drained WithLeds 100 false l1 m1 Hr1 Hl1 Hi1)
    as (had & l2 & m2 & E2 & D2).
  rewrite (bind_Ok _ _ _ _ _ E2). cbn [fst snd].
  pose proof (drain_led _ _ _ _ _ _ _ Hr1 Hl1 Hi1 Hok1 E2) as Hok2.
  destruct had; cbn [negb when].
  - intros H. injection H as <- <-. exact Hok2.
  - rewrite (bind_Ok _ _ _ _ _ (sleep_ms_effect 1 m2)).
    intros H. injection H as <- <-.
    rewrite (led_ok_fields l2 m2 _); [exact Hok2|reflexivity].
Qed.

(** X12: a round of the LED build keeps the bar in one of two states.
    When the round begins with the ready LED green, the command LED off
    or blue with the timer armed, and the four other LEDs off, it ends
    so; in particular the command LED is never left blue without a
    timer that will turn it off. *)
Theorem led_bar_stays_ready_or_flashing (l : locals) (m : machine)
    (Hr : ready m = true) (Hl : line_ok m = true) (Hi : input_ok m = true)
    (Hok : led_ok l m = true) :
  exists l' m',
    main_iteration WithLeds l m = Ok l' m' /\
    (led_bar m' = default_leds \/
     (led_bar m' = flashing_leds /\ command_led_active l' = true)).
Proof.
  destruct (main_iteration_drained WithLeds l m Hr Hl Hi) as (l' & m' & E & _).
  exists l', m'. split; [exact E|].
  apply led_ok_inv. exact (main_iteration_led l m l' m' Hr Hl Hi Hok E).
Qed.

Lemma led_bar_stays_ready_or_flashing_after_a_line :
  exists l' m',
    main_iteration WithLeds (mkLocals 0 false) (bench WithLeds "3,50" [true] 0)
      = Ok l' m' /\
    (led_bar m' = default_leds \/
     (led_bar m' = flashing_leds /\ command_led_active l' = true)).
Proof.
  apply (led_bar_stays_ready_or_flashing (mkLocals 0 false)
           (bench WithLeds "3,50" [true] 0)); vm_compute; reflexivity.
Defined.

Lemma main_loop_led n :
  forall l m l' m',
    ready m = true -> line_ok m = true -> input_ok m = true ->
    led_ok l m = true ->
    main_loop WithLeds n l m = Ok l' m' -> led_ok l' m' = true.
Proof.
  induction n as [|n IH]; intros l m l' m' Hr Hl Hi Hok.
  - intros H. injection H as <- <-. exact Hok.
  - cbn [main_loop].
    destruct (main_iteration_drained WithLeds l m Hr Hl Hi) as (l1 & m1 & E1 & D1).
    rewrite (bind_Ok _ _ _ _ _ E1).
    apply IH; try apply D1.
    exact (main_iteration_led l m l1 m1 Hr Hl Hi Hok E1).
Qed.

Lemma started_led input button t :
  led_ok (start_locals WithLeds input button t) (started WithLeds input button t) = true.
Proof. vm_compute. reflexivity. Qed.

(** X13: in the LED build, from reset and after any number of rounds on
    any input of bytes, the ready LED is green, the four last LEDs are
    off, and the command LED is off, or blue with the timer armed. *)
Theorem led_bar_over_the_run
    (input : list Z) (button : list bool) (t : Z) (n : nat)
    (Hi : forallb is_byte input = true) :
  exists l m,
    run WithLeds n (boot input button t) = Ok l m /\
    (led_bar m = default_leds \/
     (led_bar m = flashing_leds /\ command_led_active l = true)).
Proof.
  destruct (run_drained WithLeds input button t n Hi) as (l & m & E & _).
  exists l, m. split; [exact E|]. apply led_ok_inv.
  rewrite run_started in E.
  exact (main_loop_led n _ _ l m (started_ready _ _ _ _) (started_line_ok _ _ _ _)
           (started_input_ok _ _ _ _ Hi) (started_led input button t) E).
Qed.

Lemma led_bar_over_the_run_with_a_press :
  exists l m,
    run WithLeds 2 (boot (C.of_string "3,50" ++ [10]) [false; true] 0) = Ok l m /\
    (led_bar m = default_leds \/
     (led_bar m = flashing_leds /\ command_led_active l = true)).
Proof.
  apply (led_bar_over_the_run (C.of_string "3,50" ++ [10]) [false; true] 0 2).
  vm_compute. reflexivity.
Defined.

(** ** The servos stay as setup configured them *)

Lemma started_servos v input button t :
  servos (started v input button t) =
  map (fun n => configured_servo (Z.of_nat n + 1)) (seq 0 (Z.to_nat NUM_SERVOS)).
Proof. destruct v; vm_compute; reflexivity. Qed.

(** X14: the program never disables, re-initialises or recalibrates a
    servo, and never swaps its pin: from reset and after any number of
    rounds on any input of bytes, each of the 18 servos is the one setup
    configured, apart from the pulse it got last. *)
Theorem servos_stay_configured
    (v : build) (input : list Z) (button : list bool) (t : Z) (n : nat)
    (Hi : forallb is_byte input = true) :
  exists l m,
    run v n (boot input button t) = Ok l m /\
    forall ch, (ch < Z.to_nat NUM_SERVOS)%nat ->
      exists s, servos m !! ch = Some (Some s) /\
                Some (without_pulse s) = configured_servo (Z.of_nat ch + 1).
Proof.
  destruct (run_drained v input button t n Hi) as (l & m & E & D).
  exists l, m. split; [exact E|]. intros ch Hch.
  rewrite (dr_servos _ _ _ D), lookup_foldl_pulse_store, started_servos.
  assert (map (fun n => configured_servo (Z.of_nat n + 1))
              (seq 0 (Z.to_nat NUM_SERVOS)) !! ch =
          Some (configured_servo (Z.of_nat ch + 1))) as ->.
  { change (map ?f ?l) with (f <$> l).
    rewrite list_lookup_fmap, lookup_seq_lt by exact Hch. reflexivity. }
  destruct (written ch _) as [x|]; eexists; (split; [reflexivity|reflexivity]).
Qed.

Lemma servos_stay_configured_after_a_line :
  exists l m,
    run Plain 1 (boot (C.of_string "3,50" ++ [10]) [] 0) = Ok l m /\
    forall ch, (ch < Z.to_nat NUM_SERVOS)%nat ->
      exists s, servos m !! ch = Some (Some s) /\
                Some (without_pulse s) = configured_servo (Z.of_nat ch + 1).
Proof.
  apply (servos_stay_configured Plain (C.of_string "3,50" ++ [10]) [] 0 1).
  vm_compute. reflexivity.
Defined.
